(** * Sensibo climate entity and Xiaomi TV entity: command dispatch

    A shallow embedding of
    [homeassistant/components/sensibo/climate.py] and
    [homeassistant/components/xiaomi_tv/media_player.py].

    Numbers.  The valid target temperatures of a device are Python [int]s
    ([Z]).  A requested temperature is an [int] or a finite [float]; both
    are exact rationals and Python compares an [int] with a [float] by
    value, so a requested temperature is a canonical rational ([Qc]). *)

From Stdlib Require Import QArith Qcanon.
From Equations Require Import Equations.
From stdpp Require Import base decidable option numbers list sorting strings gmap.

Local Open Scope string_scope.
Local Open Scope Z_scope.

(** ** Python results *)

Inductive exn : Type :=
  | IndexError
  | KeyError (key : string)
  | ValueError (msg : string)
  | HomeAssistantError (msg : string)
  | SensiboError
  | ApplyError (step : string).

Inductive res (A : Type) : Type :=
  | Ret (a : A)
  | Raise (e : exn).
Arguments Ret {A} a.
Arguments Raise {A} e.

Definition res_bind {A B} (r : res A) (k : A → res B) : res B :=
  match r with
  | Ret a => k a
  | Raise e => Raise e
  end.

(** ** Python list indexing

    [a[i]] for [0 <= i]: an index at or past the end raises [IndexError]. *)
Definition getitem (a : list Z) (i : nat) : res Z :=
  match a !! i with
  | Some v => Ret v
  | None => Raise IndexError
  end.

(** [a[-1]]: the last element, [IndexError] on the empty list. *)
Definition getitem_last (a : list Z) : res Z :=
  match last a with
  | Some v => Ret v
  | None => Raise IndexError
  end.

(** ** [bisect.bisect_left] (Python standard library)

<<
    lo, hi = 0, len(a)
    while lo < hi:
        mid = (lo + hi) // 2
        if a[mid] < x: lo = mid + 1
        else: hi = mid
    return lo
>>
*)
Equations? bisect_loop (a : list Z) (x : Qc) (lo hi : nat) : res nat
  by wf (hi - lo)%nat lt :=
bisect_loop a x lo hi with decide (lo < hi)%nat := {
  | left _ with getitem a ((lo + hi) `div` 2)%nat := {
      | Ret am with decide (Qc_of_Z am < x)%Qc := {
          | left _ => bisect_loop a x ((lo + hi) `div` 2 + 1)%nat hi
          | right _ => bisect_loop a x lo ((lo + hi) `div` 2)%nat }
      | Raise e => Raise e }
  | right _ => Ret lo }.
Proof.
  all: change (Nat.divmod (lo + hi) 1 0 1).1 with ((lo + hi) `div` 2)%nat.
  - assert (lo ≤ (lo + hi) `div` 2)%nat by (apply Nat.div_le_lower_bound; lia).
    lia.
  - assert ((lo + hi) `div` 2 < hi)%nat by (apply Nat.Div0.div_lt_upper_bound; lia).
    lia.
Qed.

Definition bisect_left (a : list Z) (x : Qc) : res nat :=
  bisect_loop a x 0 (length a).

(** ** [_find_valid_target_temp] (climate.py, lines 74-79) *)
Definition _find_valid_target_temp (target : Qc) (valid_targets : list Z) : res Z :=
  res_bind (getitem valid_targets 0) (λ first,
    if decide (target ≤ Qc_of_Z first)%Qc then getitem valid_targets 0
    else
      res_bind (getitem_last valid_targets) (λ last_,
        if decide (Qc_of_Z last_ ≤ target)%Qc then getitem_last valid_targets
        else
          res_bind (bisect_left valid_targets target) (λ i,
            getitem valid_targets i))).

(** Vocabulary for the domain of valid targets: ascending (not necessarily
    strictly), least and greatest element. *)
Definition ascending (D : list Z) : Prop := Sorted Z.le D.
Definition is_min (m : Z) (D : list Z) : Prop := m ∈ D ∧ ∀ d, d ∈ D → m ≤ d.
Definition is_max (M : Z) (D : list Z) : Prop := M ∈ D ∧ ∀ d, d ∈ D → d ≤ M.

(** ** Dictionaries

    A Python [dict] with few keys, in insertion order. *)
Fixpoint dict_get {K V} `{EqDecision K} (d : list (K * V)) (k : K) : option V :=
  match d with
  | [] => None
  | (k', v) :: d' => if decide (k = k') then Some v else dict_get d' k
  end.

(** [d[k] = v]: overwrite in place, or append. *)
Fixpoint dict_set {K V} `{EqDecision K} (d : list (K * V)) (k : K) (v : V) : list (K * V) :=
  match d with
  | [] => [(k, v)]
  | (k', v') :: d' => if decide (k = k') then (k, v) :: d' else (k', v') :: dict_set d' k v
  end.

(** [d[k]] raises [KeyError] on a missing key. *)
Definition dict_getitem {V} (d : list (string * V)) (k : string) : res V :=
  match dict_get d k with
  | Some v => Ret v
  | None => Raise (KeyError k)
  end.

(** ** Constants of climate.py *)

(** The members of [HVACMode], the enum of
    [homeassistant.components.climate.const] that climate.py imports.
    [AUTO] is a member that no entry of [SENSIBO_TO_HA] has as its
    value. *)
Inductive HVACMode : Type := OFF | HEAT | COOL | HEAT_COOL | AUTO | DRY | FAN_ONLY.

Global Instance HVACMode_eq_dec : EqDecision HVACMode.
Proof. solve_decision. Defined.

Definition HVACMode_name (m : HVACMode) : string :=
  match m with
  | OFF => "off" | HEAT => "heat" | COOL => "cool"
  | HEAT_COOL => "heat_cool" | AUTO => "auto" | DRY => "dry" | FAN_ONLY => "fan_only"
  end.

Definition SENSIBO_TO_HA : list (string * HVACMode) :=
  [("cool", COOL); ("heat", HEAT); ("fan", FAN_ONLY);
   ("auto", HEAT_COOL); ("dry", DRY); ("off", OFF)].

(** [{value: key for key, value in SENSIBO_TO_HA.items()}] *)
Definition HA_TO_SENSIBO : list (HVACMode * string) :=
  foldl (λ d kv, dict_set d kv.2 kv.1) [] SENSIBO_TO_HA.

Definition AC_STATE_TO_DATA : list (string * string) :=
  [("targetTemperature", "target_temp"); ("fanLevel", "fan_mode");
   ("on", "device_on"); ("mode", "hvac_mode"); ("swing", "swing_mode")].

(** ** Device data and the vendor client *)

(** The values that climate.py passes to the vendor API. *)
Inductive value : Type :=
  | VBool (b : bool)
  | VInt (z : Z)
  | VStr (s : string).

Global Instance value_eq_dec : EqDecision value.
Proof. solve_decision. Defined.

(** The fields of pysensibo's [SensiboDevice] that the command methods and
    the mode property read or write. *)
Record SensiboDevice : Type := {
  available : bool;
  device_on : bool;
  hvac_mode : option string;
  target_temp : option Z;
  fan_mode : option string;
  swing_mode : option string;
  temp_list : list Z;
  active_features : list string;
  ac_states : list (string * value);
}.

(** [setattr(entity.device_data, key, value)] for the attribute names in
    [AC_STATE_TO_DATA].  The call sites of climate.py pair [device_on] with
    a [bool], [target_temp] with an [int] and the three others with a
    [str]; no other pair is written by this code, and the model leaves the
    record as it is for them. *)
Definition setattr (d : SensiboDevice) (key : string) (v : value) : SensiboDevice :=
  match v with
  | VBool b =>
      if decide (key = "device_on") then
        {| available := available d; device_on := b; hvac_mode := hvac_mode d;
           target_temp := target_temp d; fan_mode := fan_mode d;
           swing_mode := swing_mode d; temp_list := temp_list d;
           active_features := active_features d; ac_states := ac_states d |}
      else d
  | VInt z =>
      if decide (key = "target_temp") then
        {| available := available d; device_on := device_on d; hvac_mode := hvac_mode d;
           target_temp := Some z; fan_mode := fan_mode d;
           swing_mode := swing_mode d; temp_list := temp_list d;
           active_features := active_features d; ac_states := ac_states d |}
      else d
  | VStr s =>
      if decide (key = "hvac_mode") then
        {| available := available d; device_on := device_on d; hvac_mode := Some s;
           target_temp := target_temp d; fan_mode := fan_mode d;
           swing_mode := swing_mode d; temp_list := temp_list d;
           active_features := active_features d; ac_states := ac_states d |}
      else if decide (key = "fan_mode") then
        {| available := available d; device_on := device_on d; hvac_mode := hvac_mode d;
           target_temp := target_temp d; fan_mode := Some s;
           swing_mode := swing_mode d; temp_list := temp_list d;
           active_features := active_features d; ac_states := ac_states d |}
      else if decide (key = "swing_mode") then
        {| available := available d; device_on := device_on d; hvac_mode := hvac_mode d;
           target_temp := target_temp d; fan_mode := fan_mode d;
           swing_mode := Some s; temp_list := temp_list d;
           active_features := active_features d; ac_states := ac_states d |}
      else d
  end.

(** One call of [self._client.async_set_ac_state_property]. *)
Record api_call : Type := {
  call_device_id : string;
  call_name : string;
  call_value : value;
  call_ac_states : list (string * value);
  call_assumed_state : bool;
}.

(** What the vendor client does with a call: it returns a response, of
    which the code reads [result.get("result", {}).get("status")], or it
    raises one of the vendor library's errors. *)
Inductive client_result : Type :=
  | Response (status : option string)
  | ClientError.

(** The entity: the device data it shares with the coordinator, its device
    id, the coordinator's [last_update_success] ([super().available]) and
    the calls made to the vendor client so far, oldest first. *)
Record entity : Type := {
  device_data : SensiboDevice;
  _device_id : string;
  last_update_success : bool;
  calls : list api_call;
}.

Definition set_device_data (e : entity) (d : SensiboDevice) : entity :=
  {| device_data := d; _device_id := _device_id e;
     last_update_success := last_update_success e; calls := calls e |}.

Definition log_call (e : entity) (c : api_call) : entity :=
  {| device_data := device_data e; _device_id := _device_id e;
     last_update_success := last_update_success e; calls := calls e ++ [c] |}.

(** The arguments of [async_set_ac_state_property(self._device_id, name,
    value, self.device_data.ac_states, assumed_state)]. *)
Definition make_call (e : entity) (name : string) (v : value) (assumed_state : bool) : api_call :=
  {| call_device_id := _device_id e; call_name := name; call_value := v;
     call_ac_states := ac_states (device_data e);
     call_assumed_state := assumed_state |}.

(** The vendor reported success: the response has status ["Success"]. *)
Definition succeeded (r : client_result) : bool :=
  match r with
  | Response status => bool_decide (status = Some "Success")
  | ClientError => false
  end.

(** ** Command methods as state transformers

    A method runs on the entity and returns a result or raises; what it did
    to the entity before raising stays done. *)
Definition M (A : Type) : Type := entity → res A * entity.

Global Instance M_ret : MRet M := λ A a e, (Ret a, e).
Global Instance M_bind : MBind M := λ A B f m e,
  match m e with
  | (Ret a, e') => f a e'
  | (Raise x, e') => (Raise x, e')
  end.

Definition raise {A} (x : exn) : M A := λ e, (Raise x, e).
Definition lift {A} (r : res A) : M A := λ e, (r, e).
Definition get_device_data : M SensiboDevice := λ e, (Ret (device_data e), e).

(** Python truthiness of an optional string. *)
Definition truthy (s : option string) : bool :=
  match s with
  | Some s => negb (bool_decide (s = ""))
  | None => false
  end.

(** [SensiboClimate.hvac_mode] (lines 152-157). *)
Definition hvac_mode_property (d : SensiboDevice) : res HVACMode :=
  if device_on d && truthy (hvac_mode d)
  then dict_getitem SENSIBO_TO_HA (default "" (hvac_mode d))
  else Ret OFF.

(** [SensiboClimate.available] (lines 235-238). *)
Definition available_property (e : entity) : bool :=
  available (device_data e) && last_update_success e.

(** [temperature == self.target_temperature], a number against
    [int | None]. *)
Definition eq_target (temperature : Qc) (target : option Z) : bool :=
  match target with
  | Some c => bool_decide (temperature = Qc_of_Z c)
  | None => false
  end.

Section Climate.
(** The vendor client: its answer to a call, given the calls before it. *)
Variable client : list api_call → api_call → client_result.

(** The body of [async_send_api_call] (lines 396-412). *)
Definition send_api_call_body (name : string) (v : value) (assumed_state : bool) : M bool :=
  λ e,
    let c := make_call e name v assumed_state in
    match client (calls e) c with
    | Response status => (Ret (bool_decide (status = Some "Success")), log_call e c)
    | ClientError => (Raise SensiboError, log_call e c)
    end.

(** Modelled from the spec: the decorator [async_handle_api_call] of
    [.entity], which wraps [async_send_api_call] and is not among the
    sources.  The spec (4.4, 7): the adapter's apply is called once and
    not retried; when the vendor rejects the command or fails to execute
    it, an [ApplyError] for that step is surfaced to the caller; on
    vendor-reported success the store is reconciled with the new value. *)
Definition async_handle_api_call (function : M bool)
    (key : string) (v : value) (name : string) : M unit :=
  λ e,
    match function e with
    | (Ret true, e') => (Ret (), set_device_data e' (setattr (device_data e') key v))
    | (Ret false, e') => (Raise (ApplyError name), e')
    | (Raise _, e') => (Raise (ApplyError name), e')
    end.

Definition async_send_api_call (key : string) (v : value) (name : string)
    (assumed_state : bool) : M unit :=
  async_handle_api_call (send_api_call_body name v assumed_state) key v name.

(** [async_set_temperature] (lines 240-260); [temperature] is
    [kwargs.get(ATTR_TEMPERATURE)]. *)
Definition async_set_temperature (temperature : option Qc) : M unit :=
  d ← get_device_data;
  if decide ("targetTemperature" ∈ active_features d) then
    match temperature with
    | None => raise (ValueError "No target temperature provided")
    | Some t =>
        if eq_target t (target_temp d) then mret ()
        else
          new_temp ← lift (_find_valid_target_temp t (temp_list d));
          key ← lift (dict_getitem AC_STATE_TO_DATA "targetTemperature");
          async_send_api_call key (VInt new_temp) "targetTemperature" false
    end
  else
    raise (HomeAssistantError "Current mode doesn't support setting Target Temperature").

(** [async_set_fan_mode] (lines 262-273). *)
Definition async_set_fan_mode (fan_mode : string) : M unit :=
  d ← get_device_data;
  if decide ("fanLevel" ∈ active_features d) then
    key ← lift (dict_getitem AC_STATE_TO_DATA "fanLevel");
    async_send_api_call key (VStr fan_mode) "fanLevel" false
  else raise (HomeAssistantError "Current mode doesn't support setting Fanlevel").

(** [async_set_hvac_mode] (lines 275-303). *)
Definition async_set_hvac_mode (hvac_mode : HVACMode) : M unit :=
  if decide (hvac_mode = OFF) then
    key ← lift (dict_getitem AC_STATE_TO_DATA "on");
    async_send_api_call key (VBool false) "on" false
  else
    d ← get_device_data;
    _ ← (if device_on d then mret ()
         else
           key ← lift (dict_getitem AC_STATE_TO_DATA "on");
           async_send_api_call key (VBool true) "on" false);
    key ← lift (dict_getitem AC_STATE_TO_DATA "mode");
    v ← lift (match dict_get HA_TO_SENSIBO hvac_mode with
              | Some s => Ret s
              | None => Raise (KeyError (HVACMode_name hvac_mode))
              end);
    async_send_api_call key (VStr v) "mode" false.

(** [async_set_swing_mode] (lines 305-316). *)
Definition async_set_swing_mode (swing_mode : string) : M unit :=
  d ← get_device_data;
  if decide ("swing" ∈ active_features d) then
    key ← lift (dict_getitem AC_STATE_TO_DATA "swing");
    async_send_api_call key (VStr swing_mode) "swing" false
  else raise (HomeAssistantError "Current mode doesn't support setting Swing").

(** [async_turn_on], [async_turn_off] (lines 318-336). *)
Definition async_turn_on : M unit :=
  key ← lift (dict_getitem AC_STATE_TO_DATA "on");
  async_send_api_call key (VBool true) "on" false.

Definition async_turn_off : M unit :=
  key ← lift (dict_getitem AC_STATE_TO_DATA "on");
  async_send_api_call key (VBool false) "on" false.

(** [async_assume_state] (lines 338-346): [state != HVACMode.OFF]
    compares the string with the member's value. *)
Definition async_assume_state (state : string) : M unit :=
  key ← lift (dict_getitem AC_STATE_TO_DATA "on");
  async_send_api_call key (VBool (negb (bool_decide (state = HVACMode_name OFF)))) "on" true.

(** The commands of the climate entity and the method each one runs. *)
Inductive command : Type :=
  | SetTemperature (temperature : option Qc)
  | SetFanMode (fan_mode : string)
  | SetHvacMode (hvac_mode : HVACMode)
  | SetSwingMode (swing_mode : string)
  | TurnOn
  | TurnOff
  | AssumeState (state : string).

Definition execute (c : command) : M unit :=
  match c with
  | SetTemperature t => async_set_temperature t
  | SetFanMode m => async_set_fan_mode m
  | SetHvacMode m => async_set_hvac_mode m
  | SetSwingMode m => async_set_swing_mode m
  | TurnOn => async_turn_on
  | TurnOff => async_turn_off
  | AssumeState s => async_assume_state s
  end.
End Climate.

(** The feature that a command needs among the active features of the
    current mode, for the three commands that need one. *)
Definition required_feature (c : command) : option string :=
  match c with
  | SetTemperature _ => Some "targetTemperature"
  | SetFanMode _ => Some "fanLevel"
  | SetSwingMode _ => Some "swing"
  | _ => None
  end.

(** The validation error of a command whose feature is not active. *)
Definition unsupported_in_current_mode (c : command) : exn :=
  match c with
  | SetTemperature _ =>
      HomeAssistantError "Current mode doesn't support setting Target Temperature"
  | SetFanMode _ => HomeAssistantError "Current mode doesn't support setting Fanlevel"
  | _ => HomeAssistantError "Current mode doesn't support setting Swing"
  end.



(** The entity with other availability flags: [a] for the device data, [u]
    for the coordinator. *)
Definition set_availability (a u : bool) (e : entity) : entity :=
  {| device_data :=
       {| available := a; device_on := device_on (device_data e);
          hvac_mode := hvac_mode (device_data e);
          target_temp := target_temp (device_data e);
          fan_mode := fan_mode (device_data e);
          swing_mode := swing_mode (device_data e);
          temp_list := temp_list (device_data e);
          active_features := active_features (device_data e);
          ac_states := ac_states (device_data e) |};
     _device_id := _device_id e; last_update_success := u; calls := calls e |}.

(** ** Sample entities and vendor clients *)

Definition sample_device : SensiboDevice :=
  {| available := true; device_on := false; hvac_mode := Some "cool";
     target_temp := Some 20; fan_mode := Some "high"; swing_mode := Some "stopped";
     temp_list := [16; 17; 18; 19; 20; 21; 22; 23; 24; 25; 26; 27; 28; 29; 30];
     active_features := ["targetTemperature"; "fanLevel"; "swing"];
     ac_states := [("on", VBool false); ("mode", VStr "cool");
                   ("targetTemperature", VInt 20); ("fanLevel", VStr "high")] |}.

(** The same device in a mode without target temperature. *)
Definition sample_device_fan_only : SensiboDevice :=
  {| available := true; device_on := true; hvac_mode := Some "fan";
     target_temp := Some 20; fan_mode := Some "high"; swing_mode := Some "stopped";
     temp_list := [16; 17; 18; 19; 20; 21; 22; 23; 24; 25; 26; 27; 28; 29; 30];
     active_features := ["fanLevel"];
     ac_states := [("on", VBool true); ("mode", VStr "fan")] |}.

Definition sample_entity (d : SensiboDevice) : entity :=
  {| device_data := d; _device_id := "ABC123"; last_update_success := true; calls := [] |}.

(** A vendor that accepts every call. *)
Definition client_ok : list api_call → api_call → client_result :=
  λ _ _, Response (Some "Success").

(** A vendor that accepts every call but the first. *)
Definition client_second_fails : list api_call → api_call → client_result :=
  λ history _, match history with
               | [] => Response (Some "Success")
               | _ => Response (Some "Failed")
               end.

(** A vendor that cannot be reached. *)
Definition client_down : list api_call → api_call → client_result :=
  λ _ _, ClientError.

(** ** The Xiaomi TV entity (media_player.py) *)

Definition STATE_OFF : string := "off".
Definition STATE_ON : string := "on".

(** The calls on [pymitv.TV]. *)
Inductive tv_call : Type := Sleep | Wake | VolumeUp | VolumeDown.

Record XiaomiTV : Type := {
  _state : string;
  tv_calls : list tv_call;
}.

(** [XiaomiTV.turn_off] (lines 90-101). *)
Definition turn_off (tv : XiaomiTV) : XiaomiTV :=
  if decide (_state tv ≠ STATE_OFF)
  then {| _state := STATE_OFF; tv_calls := tv_calls tv ++ [Sleep] |}
  else tv.

(** [XiaomiTV.turn_on] (lines 103-108). *)
Definition turn_on (tv : XiaomiTV) : XiaomiTV :=
  if decide (_state tv ≠ STATE_ON)
  then {| _state := STATE_ON; tv_calls := tv_calls tv ++ [Wake] |}
  else tv.


(** ** Device State Store *)

Section Store.
(** The snapshot of a device is opaque to the store. *)
Variable Snapshot : Type.

(** The number of consecutive failures after which a device is marked
    unavailable. *)
Variable threshold : nat.

Record StoreEntry : Type := {
  snapshot : Snapshot;
  revision : nat;
  failure_count : nat;
  entry_available : bool;
}.

Inductive merge_input : Type :=
  | Fetched (s : Snapshot)
  | Failure.

(** Modelled from the spec: the update of one Store Entry by the
    Coordinator's merge (spec 4.2, steps 2 and 3), which is not among the
    sources.  On success the new revision is the previous one plus one,
    the snapshot is replaced and the failure count reset; on failure the
    failure count is incremented, the snapshot and the revision are left
    intact, and the entry becomes unavailable once the count reaches the
    threshold. *)
Definition merge_entry (x : merge_input) (en : StoreEntry) : StoreEntry :=
  match x with
  | Fetched s =>
      {| snapshot := s; revision := revision en + 1;
         failure_count := 0; entry_available := true |}
  | Failure =>
      {| snapshot := snapshot en; revision := revision en;
         failure_count := failure_count en + 1;
         entry_available :=
           if decide (threshold ≤ failure_count en + 1)%nat then false
           else entry_available en |}
  end.

(** Modelled from the spec: [merge(deviceId, newSnapshotOrFailure) ->
    revision] of the Device State Store (spec 4.3), which is not among
    the sources.  Merges on one device are serialized by the per-device
    lock, so a merge is one atomic step on the store; a device that was
    never registered has no entry to merge into. *)
Definition merge (id : string) (x : merge_input) (st : gmap string StoreEntry)
    : option (nat * gmap string StoreEntry) :=
  match st !! id with
  | Some en => Some (revision (merge_entry x en), <[id := merge_entry x en]> st)
  | None => None
  end.

(** The revisions returned, in order, by the successful merges for device
    [d] in a sequence of merges on the store. *)
Fixpoint merge_revisions (d : string) (ops : list (string * merge_input))
    (st : gmap string StoreEntry) : list nat :=
  match ops with
  | [] => []
  | (id, x) :: ops' =>
      match merge id x st with
      | Some (r, st') =>
          match x with
          | Fetched _ => if decide (id = d) then r :: merge_revisions d ops' st'
                         else merge_revisions d ops' st'
          | Failure => merge_revisions d ops' st'
          end
      | None => merge_revisions d ops' st
      end
  end.
End Store.

Arguments Fetched {Snapshot} s.
Arguments Failure {Snapshot}.

(** ** Read properties of the climate entity *)

(** [SensiboClimate.min_temp] (lines 223-227) and [max_temp]
    (lines 229-233). *)
Definition min_temp (d : SensiboDevice) : res Z := getitem (temp_list d) 0.
Definition max_temp (d : SensiboDevice) : res Z := getitem_last (temp_list d).

(** [SensiboClimate.hvac_modes] (lines 159-167).  The loop appends the
    translation of each vendor mode of [device_data.hvac_modes] to the
    list built so far; an empty result is replaced by [[HVACMode.OFF]]. *)
Fixpoint hvac_modes_loop (modes : list string) (hvac_modes : list HVACMode) :
    res (list HVACMode) :=
  match modes with
  | [] => Ret hvac_modes
  | mode :: modes' =>
      res_bind (dict_getitem SENSIBO_TO_HA mode) (λ m,
        hvac_modes_loop modes' (hvac_modes ++ [m]))
  end.

Definition hvac_modes_property (modes : list string) : res (list HVACMode) :=
  res_bind (hvac_modes_loop modes []) (λ hvac_modes,
    Ret (match hvac_modes with [] => [OFF] | _ => hvac_modes end)).

Section Features.
(** The members of [ClimateEntityFeature] that [FIELD_TO_FLAG] names; their
    values are defined outside climate.py. *)
Variables FAN_MODE SWING_MODE TARGET_TEMPERATURE : Z.

Definition FIELD_TO_FLAG : list (string * Z) :=
  [("fanLevel", FAN_MODE); ("swing", SWING_MODE);
   ("targetTemperature", TARGET_TEMPERATURE)].

(** [SensiboClimate.get_features] (lines 139-145), on
    [device_data.full_features]. *)
Definition get_features (full_features : list string) : Z :=
  foldl (λ features key,
           match dict_get FIELD_TO_FLAG key with
           | Some flag => Z.lor features flag
           | None => features
           end) 0 full_features.
End Features.

(** ** The custom services of the climate entity *)

(** [x is False]. *)
Definition is_False (v : value) : bool :=
  match v with
  | VBool false => true
  | _ => false
  end.

(** The [data] that [async_enable_timer] (lines 348-361) passes on. *)
Record timer_params : Type := {
  minutesFromNow : Z;
  acState : list (string * value);
}.

(** Lines 350-354 of [async_enable_timer]:
    [{**self.device_data.ac_states, "on": new_state}] keeps the entries of
    [ac_states] in their order, with the one for ["on"] replaced. *)
Definition enable_timer_params (minutes : Z) (d : SensiboDevice) : res timer_params :=
  res_bind (dict_getitem (ac_states d) "on") (λ on,
    let new_state := is_False on in
    Ret {| minutesFromNow := minutes;
           acState := dict_set (ac_states d) "on" (VBool new_state) |}).

(** [sensitivity[0]]. *)
Definition first_char (s : string) : res string :=
  match s with
  | EmptyString => Raise IndexError
  | String c _ => Ret (String c EmptyString)
  end.

(** [params[key] = value] when the argument is not [None]. *)
Definition set_if_given (params : list (string * value)) (key : string)
    (arg : option bool) : list (string * value) :=
  match arg with
  | Some b => dict_set params key (VBool b)
  | None => params
  end.

(** Lines 373-385 of [async_enable_pure_boost]: the [data] that the method
    passes on. *)
Definition enable_pure_boost_params
    (ac_integration geo_integration indoor_integration outdoor_integration : option bool)
    (sensitivity : option string) : res (list (string * value)) :=
  let params := [("enabled", VBool true)] in
  res_bind (match sensitivity with
            | Some s => res_bind (first_char s) (λ c, Ret (dict_set params "sensitivity" (VStr c)))
            | None => Ret params
            end) (λ params,
    let params := set_if_given params "measurementsIntegration" indoor_integration in
    let params := set_if_given params "acIntegration" ac_integration in
    let params := set_if_given params "geoIntegration" geo_integration in
    let params := set_if_given params "primeIntegration" outdoor_integration in
    Ret params).

(** ** The commands of the Xiaomi TV entity *)

(** [XiaomiTV.__init__] (lines 66-73). *)
Definition XiaomiTV_init : XiaomiTV := {| _state := STATE_OFF; tv_calls := [] |}.

(** [XiaomiTV.volume_up] (lines 110-112) and [volume_down]
    (lines 114-116). *)
Definition volume_up (tv : XiaomiTV) : XiaomiTV :=
  {| _state := _state tv; tv_calls := tv_calls tv ++ [VolumeUp] |}.

Definition volume_down (tv : XiaomiTV) : XiaomiTV :=
  {| _state := _state tv; tv_calls := tv_calls tv ++ [VolumeDown] |}.

Inductive tv_command : Type := CmdTurnOff | CmdTurnOn | CmdVolumeUp | CmdVolumeDown.

Definition tv_execute (tv : XiaomiTV) (c : tv_command) : XiaomiTV :=
  match c with
  | CmdTurnOff => turn_off tv
  | CmdTurnOn => turn_on tv
  | CmdVolumeUp => volume_up tv
  | CmdVolumeDown => volume_down tv
  end.

(** A sequence of commands, first to last. *)
Definition tv_run (tv : XiaomiTV) (cs : list tv_command) : XiaomiTV :=
  foldl tv_execute tv cs.

Global Instance tv_call_eq_dec : EqDecision tv_call.
Proof. solve_decision. Defined.

(** The power calls among the calls made to the TV. *)
Definition is_power_call (c : tv_call) : bool :=
  match c with
  | Sleep | Wake => true
  | _ => false
  end.

Definition power_calls (tv : XiaomiTV) : list tv_call :=
  filter (λ c, is_power_call c = true) (tv_calls tv).

(** No two neighbours of the list are equal. *)
Fixpoint alternates (l : list tv_call) : bool :=
  match l with
  | a :: t => match t with
              | b :: _ => negb (bool_decide (a = b)) && alternates t
              | [] => true
              end
  | [] => true
  end.

(** The volume call that a command makes whatever the state. *)
Definition volume_call (c : tv_command) : option tv_call :=
  match c with
  | CmdVolumeUp => Some VolumeUp
  | CmdVolumeDown => Some VolumeDown
  | _ => None
  end.

(** The state of the TV entity agrees with the power calls made so far:
    they alternate, the first one is not a sleep, and the state is on
    exactly when the last one is a wake. *)
Definition tv_consistent (tv : XiaomiTV) : Prop :=
  alternates (power_calls tv) = true
  ∧ head (power_calls tv) ≠ Some Sleep
  ∧ (_state tv = STATE_ON ↔ last (power_calls tv) = Some Wake)
  ∧ (_state tv = STATE_ON ∨ _state tv = STATE_OFF).

(** ** Runs of climate commands *)

(** A command that passes [assumed_state=True] to the vendor. *)
Definition is_assume_state (c : command) : bool :=
  match c with
  | AssumeState _ => true
  | _ => false
  end.

(** The parts of the entity that no command writes: the device id, the
    coordinator's flag, and the device's availability, list of
    temperatures, active features and [ac_states]. *)
Definition same_frame (e e' : entity) : Prop :=
  _device_id e' = _device_id e
  ∧ last_update_success e' = last_update_success e
  ∧ available (device_data e') = available (device_data e)
  ∧ temp_list (device_data e') = temp_list (device_data e)
  ∧ active_features (device_data e') = active_features (device_data e)
  ∧ ac_states (device_data e') = ac_states (device_data e).

(** A vendor call made for command [c] on entity [e]: it carries the
    entity's device id, the device's [ac_states] and [assumed_state=True]
    for the assume-state command only. *)
Definition call_for (e : entity) (c : command) (k : api_call) : Prop :=
  call_device_id k = _device_id e
  ∧ call_ac_states k = ac_states (device_data e)
  ∧ call_assumed_state k = is_assume_state c.

(** * Proofs *)

(** ** Properties of [bisect_left] *)

Example snap_204 :
  _find_valid_target_temp (Q2Qc (102 # 5)) [16; 17; 18; 19; 20; 21; 22] = Ret 21.
Proof. vm_compute. reflexivity. Qed.


Lemma ascending_lookup (D : list Z) (i j : nat) (u w : Z) :
  ascending D → (i ≤ j)%nat → D !! i = Some u → D !! j = Some w → u ≤ w.
Proof.
  intros HD. apply Sorted_StronglySorted in HD; [|intros ???; lia].
  revert i j. induction HD as [|d D HD IH Hall]; intros i j Hij Hi Hj.
  - by rewrite lookup_nil in Hi.
  - destruct i as [|i], j as [|j]; simpl in Hi, Hj.
    + injection Hi as <-. injection Hj as <-. lia.
    + injection Hi as <-. rewrite Forall_lookup in Hall. eauto.
    + lia.
    + apply (IH i j); [lia|done..].
Qed.

(** What the loop guarantees on any list, sorted or not: it returns, the
    index stays in the window, everything it stepped over on the left is
    below [x] and the place it stops at, unless it is the initial [hi], is
    not below [x]. *)
Lemma bisect_loop_spec (a : list Z) (x : Qc) (lo hi : nat) :
  (lo ≤ hi ≤ length a)%nat →
  ∃ i, bisect_loop a x lo hi = Ret i
       ∧ (lo ≤ i ≤ hi)%nat
       ∧ (i = lo ∨ ∃ v, a !! (i - 1)%nat = Some v ∧ (Qc_of_Z v < x)%Qc)
       ∧ (i = hi ∨ ∃ v, a !! i = Some v ∧ ¬ (Qc_of_Z v < x)%Qc).
Proof.
  funelim (bisect_loop a x lo hi); intros Hb.
  - exists lo. repeat split; auto; lia.
  - exfalso. unfold getitem in Heq.
    destruct (a !! _) eqn:E; [done|]. apply lookup_ge_None in E.
    assert ((lo + hi) `div` 2 < hi)%nat by (apply Nat.Div0.div_lt_upper_bound; lia).
    lia.
  - unfold getitem in Heq0. destruct (a !! _) eqn:E; [|done]. simplify_eq.
    assert ((lo + hi) `div` 2 < hi)%nat by (apply Nat.Div0.div_lt_upper_bound; lia).
    assert (lo ≤ (lo + hi) `div` 2)%nat by (apply Nat.div_le_lower_bound; lia).
    destruct H as (i & Hr & Hi & Hl & Hh); [lia|].
    exists i. split; [done|]. split; [lia|]. split; [|done].
    destruct Hl as [->|Hl]; [|by right].
    right. exists am. split; [|done].
    by replace ((lo + hi) `div` 2 + 1 - 1)%nat with ((lo + hi) `div` 2)%nat by lia.
  - unfold getitem in Heq0. destruct (a !! _) eqn:E; [|done]. simplify_eq.
    assert ((lo + hi) `div` 2 < hi)%nat by (apply Nat.Div0.div_lt_upper_bound; lia).
    assert (lo ≤ (lo + hi) `div` 2)%nat by (apply Nat.div_le_lower_bound; lia).
    destruct H as (i & Hr & Hi & Hl & Hh); [lia|].
    exists i. split; [done|]. split; [lia|]. split; [done|].
    destruct Hh as [->|Hh]; [|by right].
    right. by exists am.
Qed.

(** ** The snap function on a non-empty domain *)

Lemma nonempty_first_last (D : list Z) :
  D ≠ [] → ∃ f l, D !! 0%nat = Some f ∧ last D = Some l.
Proof.
  intros HD. destruct D as [|f D]; [done|].
  destruct (last_is_Some (f :: D)) as [_ [l Hl]]; [done|]. by exists f, l.
Qed.

Lemma ascending_first_min (D : list Z) (f : Z) :
  ascending D → D !! 0%nat = Some f → is_min f D.
Proof.
  intros HD Hf. split; [by eapply list_elem_of_lookup_2|].
  intros d [j Hj]%list_elem_of_lookup. eapply (ascending_lookup D 0 j); eauto with lia.
Qed.

Lemma ascending_last_max (D : list Z) (l : Z) :
  ascending D → last D = Some l → is_max l D.
Proof.
  intros HD Hl. rewrite last_lookup in Hl.
  split; [by eapply list_elem_of_lookup_2|].
  intros d [j Hj]%list_elem_of_lookup.
  apply (ascending_lookup D j (pred (length D))); auto.
  apply lookup_lt_Some in Hj. lia.
Qed.

Lemma is_min_unique (D : list Z) (m m' : Z) : is_min m D → is_min m' D → m = m'.
Proof. intros [H1 H2] [H3 H4]. apply H2 in H3. apply H4 in H1. lia. Qed.

Lemma is_max_unique (D : list Z) (M M' : Z) : is_max M D → is_max M' D → M = M'.
Proof. intros [H1 H2] [H3 H4]. apply H2 in H3. apply H4 in H1. lia. Qed.

(** The three branches of [_find_valid_target_temp], on any non-empty list.
    In the third branch the index found by [bisect_left] is in bounds
    because the last element is above the target. *)
Lemma find_valid_target_temp_cases (D : list Z) (v : Qc) (f l : Z) :
  D !! 0%nat = Some f → last D = Some l →
  ((v ≤ Qc_of_Z f)%Qc ∧ _find_valid_target_temp v D = Ret f)
  ∨ (¬ (v ≤ Qc_of_Z f)%Qc ∧ (Qc_of_Z l ≤ v)%Qc ∧ _find_valid_target_temp v D = Ret l)
  ∨ (¬ (v ≤ Qc_of_Z f)%Qc ∧ ¬ (Qc_of_Z l ≤ v)%Qc ∧
     ∃ i r, bisect_left D v = Ret i ∧ D !! i = Some r
            ∧ _find_valid_target_temp v D = Ret r
            ∧ (v ≤ Qc_of_Z r)%Qc
            ∧ (i = 0%nat ∨ ∃ p, D !! (i - 1)%nat = Some p ∧ (Qc_of_Z p < v)%Qc)).
Proof.
  intros Hf Hl. unfold _find_valid_target_temp, getitem, getitem_last.
  rewrite Hf, Hl. simpl.
  destruct (decide (v ≤ Qc_of_Z f)%Qc) as [Hvf|Hvf]; [by left|]. right.
  destruct (decide (Qc_of_Z l ≤ v)%Qc) as [Hlv|Hlv]; [by left|]. right.
  do 2 (split; [done|]).
  destruct (bisect_loop_spec D v 0 (length D)) as (i & Hr & Hi & Hlo & Hhi); [lia|].
  rewrite last_lookup in Hl.
  assert (length D ≠ 0)%nat as Hlen by (by destruct D).
  assert (∃ r, D !! i = Some r ∧ ¬ (Qc_of_Z r < v)%Qc) as (r & Hir & Hrv).
  { destruct Hhi as [->|Hhi]; [|done]. exfalso.
    destruct Hlo as [?|(p & Hp & Hpv)]; [lia|].
    replace (length D - 1)%nat with (pred (length D)) in Hp by lia.
    rewrite Hl in Hp. injection Hp as <-.
    by apply Hlv, Qclt_le_weak. }
  exists i, r. unfold bisect_left. rewrite Hr. simpl. rewrite Hir.
  repeat split; auto. by apply Qcnot_lt_le.
Qed.

(** ** C1: the snap function *)

(** C1.  For every non-empty ascending domain [D] and every requested value
    [v], [_find_valid_target_temp] returns an element of [D]: the minimum
    of [D] when [v] is at or below it, the maximum of [D] when [v] is at or
    above it, and otherwise the smallest element of [D] that is greater
    than or equal to [v]. *)
Theorem find_valid_target_temp_snap (D : list Z) (v : Qc) :
  D ≠ [] → ascending D →
  ∃ r, _find_valid_target_temp v D = Ret r
       ∧ r ∈ D
       ∧ (∀ m, is_min m D → (v ≤ Qc_of_Z m)%Qc → r = m)
       ∧ (∀ M, is_max M D → (Qc_of_Z M ≤ v)%Qc → r = M)
       ∧ (∀ m M, is_min m D → is_max M D →
            (Qc_of_Z m < v)%Qc → (v < Qc_of_Z M)%Qc →
            (v ≤ Qc_of_Z r)%Qc ∧ ∀ d, d ∈ D → (v ≤ Qc_of_Z d)%Qc → r ≤ d).
Proof.
  intros Hne Hasc.
  destruct (nonempty_first_last D Hne) as (f & l & Hf & Hl).
  pose proof (ascending_first_min D f Hasc Hf) as Hmin.
  pose proof (ascending_last_max D l Hasc Hl) as Hmax.
  destruct (find_valid_target_temp_cases D v f l Hf Hl)
    as [(Hvf & Hr)|[(Hvf & Hlv & Hr)|(Hvf & Hlv & i & r & _ & Hir & Hr & Hvr & Hprev)]].
  - exists f. split; [done|]. split; [apply Hmin|]. split; [|split].
    + intros m Hm _. by eapply is_min_unique.
    + intros M HM HMv. destruct HM as [HMin HMle], Hmin as [Hfin Hfle].
      pose proof (HMle f Hfin). assert (M ≤ f); [|lia].
      apply Z2Qc_inj_le. by etrans.
    + intros m M Hm _ Hmv _. rewrite (is_min_unique D m f Hm Hmin) in Hmv.
      by apply Qclt_not_le in Hmv.
  - exists l. split; [done|]. split; [apply Hmax|]. split; [|split].
    + intros m Hm Hvm. by rewrite (is_min_unique D m f Hm Hmin) in Hvm.
    + intros M HM _. by eapply is_max_unique.
    + intros m M _ HM _ HvM. rewrite (is_max_unique D M l HM Hmax) in HvM.
      by apply Qclt_not_le in HvM.
  - exists r. split; [done|]. split; [by eapply list_elem_of_lookup_2|].
    split; [|split].
    + intros m Hm Hvm. by rewrite (is_min_unique D m f Hm Hmin) in Hvm.
    + intros M HM HMv. by rewrite (is_max_unique D M l HM Hmax) in HMv.
    + intros m M _ _ _ _. split; [done|].
      intros d [j Hj]%list_elem_of_lookup Hvd.
      destruct (decide (i ≤ j)%nat) as [Hij|Hij].
      * by apply (ascending_lookup D i j).
      * exfalso. destruct Hprev as [->|(p & Hp & Hpv)]; [lia|].
        assert (d ≤ p) as Hdp by (apply (ascending_lookup D j (i - 1)); auto with lia).
        apply Z2Qc_inj_le in Hdp.
        apply (Qclt_not_le _ _ Hpv). by etrans.
Qed.

Lemma find_valid_target_temp_snap_witness :
  ∃ r, _find_valid_target_temp (Q2Qc (41 # 2)) [16; 18; 20; 22; 24] = Ret r
       ∧ r ∈ [16; 18; 20; 22; 24].
Proof.
  destruct (find_valid_target_temp_snap [16; 18; 20; 22; 24] (Q2Qc (41 # 2)))
    as (r & Hr & Hin & _).
  - done.
  - unfold ascending. repeat constructor; lia.
  - by exists r.
Defined.

(** ** C9: no index is out of bounds *)

(** C9.  On a non-empty list sorted ascending, [_find_valid_target_temp]
    is total: the first and the last element exist, the index returned by
    [bisect_left] when the target is strictly between them is below the
    length of the list, and the result is an element of the list. *)
Theorem find_valid_target_temp_total (D : list Z) (v : Qc) :
  D ≠ [] → ascending D →
  (∃ f, getitem D 0 = Ret f)
  ∧ (∃ l, getitem_last D = Ret l)
  ∧ (∀ f l, getitem D 0 = Ret f → getitem_last D = Ret l →
       (Qc_of_Z f < v)%Qc → (v < Qc_of_Z l)%Qc →
       ∃ i r, bisect_left D v = Ret i ∧ (i < length D)%nat ∧ getitem D i = Ret r)
  ∧ (∃ r, _find_valid_target_temp v D = Ret r ∧ r ∈ D).
Proof.
  intros Hne _.
  destruct (nonempty_first_last D Hne) as (f & l & Hf & Hl).
  unfold getitem, getitem_last. rewrite Hf, Hl.
  split; [by exists f|]. split; [by exists l|]. split.
  - intros f' l' [= <-] [= <-] Hfv Hvl.
    destruct (find_valid_target_temp_cases D v f l Hf Hl)
      as [(Hvf & _)|[(_ & Hlv & _)|(_ & _ & i & r & Hi & Hir & _)]].
    + by apply Qclt_not_le in Hfv.
    + by apply Qclt_not_le in Hvl.
    + exists i, r. rewrite Hir. split; [done|]. split; [|done].
      by eapply lookup_lt_Some.
  - destruct (find_valid_target_temp_cases D v f l Hf Hl)
      as [(_ & Hr)|[(_ & _ & Hr)|(_ & _ & i & r & _ & Hir & Hr & _)]].
    + exists f. split; [done|]. by eapply list_elem_of_lookup_2.
    + exists l. split; [done|]. rewrite last_lookup in Hl.
      by eapply list_elem_of_lookup_2.
    + exists r. split; [done|]. by eapply list_elem_of_lookup_2.
Qed.

Lemma find_valid_target_temp_total_witness :
  ∃ r, _find_valid_target_temp (Q2Qc (17 # 1)) [16; 18; 20] = Ret r ∧ r ∈ [16; 18; 20].
Proof.
  destruct (find_valid_target_temp_total [16; 18; 20] (Q2Qc (17 # 1))) as (_ & _ & _ & H).
  - done.
  - unfold ascending. repeat constructor; lia.
  - exact H.
Defined.

(** ** C10: the reported mode *)

(** C10.  The reported HVAC mode is [OFF] whenever the power flag is false
    or the vendor mode is unset, whatever vendor mode is stored. *)
Theorem hvac_mode_off (d : SensiboDevice) :
  device_on d = false ∨ hvac_mode d = None → hvac_mode_property d = Ret OFF.
Proof.
  unfold hvac_mode_property. intros [-> | ->]; [done|].
  by rewrite andb_false_r.
Qed.

Lemma hvac_mode_off_witness :
  hvac_mode_property
    {| available := true; device_on := false; hvac_mode := Some "heat";
       target_temp := Some 20; fan_mode := None; swing_mode := None;
       temp_list := [16; 17; 18]; active_features := []; ac_states := [] |}
  = Ret OFF.
Proof. apply hvac_mode_off. left. reflexivity. Defined.

(** ** The command methods *)

(** One decorated API call: the call is logged; on success the attribute
    is written, otherwise the error of that step is raised. *)
Lemma async_send_api_call_eq client key v name assumed e :
  async_send_api_call client key v name assumed e =
    let c := make_call e name v assumed in
    if succeeded (client (calls e) c)
    then (Ret (), set_device_data (log_call e c) (setattr (device_data e) key v))
    else (Raise (ApplyError name), log_call e c).
Proof.
  unfold async_send_api_call, async_handle_api_call, send_api_call_body, succeeded.
  simpl. destruct (client _ _) as [status|]; [|done].
  by destruct (bool_decide _).
Qed.

Lemma AC_STATE_TO_DATA_on : dict_getitem AC_STATE_TO_DATA "on" = Ret "device_on".
Proof. reflexivity. Qed.
Lemma AC_STATE_TO_DATA_mode : dict_getitem AC_STATE_TO_DATA "mode" = Ret "hvac_mode".
Proof. reflexivity. Qed.
Lemma AC_STATE_TO_DATA_temp :
  dict_getitem AC_STATE_TO_DATA "targetTemperature" = Ret "target_temp".
Proof. reflexivity. Qed.
Lemma AC_STATE_TO_DATA_fan : dict_getitem AC_STATE_TO_DATA "fanLevel" = Ret "fan_mode".
Proof. reflexivity. Qed.
Lemma AC_STATE_TO_DATA_swing : dict_getitem AC_STATE_TO_DATA "swing" = Ret "swing_mode".
Proof. reflexivity. Qed.

(** [HA_TO_SENSIBO] has an entry for every mode but [AUTO]; the entry is
    a vendor name that [SENSIBO_TO_HA] translates back to the mode. *)
Lemma HA_TO_SENSIBO_cases (m : HVACMode) :
  (m = AUTO ∧ dict_get HA_TO_SENSIBO m = None)
  ∨ (m ≠ AUTO ∧ ∃ s, dict_get HA_TO_SENSIBO m = Some s
                     ∧ dict_getitem SENSIBO_TO_HA s = Ret m ∧ s ≠ "").
Proof.
  destruct m; first [by left | right; split; [done|]; eexists; by repeat split].
Qed.


Ltac unfold_method :=
  unfold execute, async_set_temperature, async_set_fan_mode, async_set_hvac_mode,
    async_set_swing_mode, async_turn_on, async_turn_off, async_assume_state,
    mbind, M_bind, mret, M_ret, get_device_data, lift, raise;
  rewrite ?AC_STATE_TO_DATA_on, ?AC_STATE_TO_DATA_mode, ?AC_STATE_TO_DATA_temp,
    ?AC_STATE_TO_DATA_fan, ?AC_STATE_TO_DATA_swing.

(** ** C5: a feature that is not active *)

(** C5.  A command on target temperature, fan level or swing whose feature
    is not among the device's active features raises the
    unsupported-in-current-mode error; the entity, and with it the list of
    adapter calls, is unchanged. *)
Theorem execute_unsupported client (c : command) (feature : string) (e : entity) :
  required_feature c = Some feature →
  feature ∉ active_features (device_data e) →
  execute client c e = (Raise (unsupported_in_current_mode c), e).
Proof.
  intros Hc Hf. destruct c; simpl in Hc; try discriminate; injection Hc as <-;
    unfold_method; by rewrite decide_False.
Qed.

Lemma execute_unsupported_witness :
  execute client_ok (SetTemperature (Some (Qc_of_Z 21))) (sample_entity sample_device_fan_only)
  = (Raise (HomeAssistantError "Current mode doesn't support setting Target Temperature"),
     sample_entity sample_device_fan_only).
Proof.
  apply (execute_unsupported client_ok (SetTemperature (Some (Qc_of_Z 21)))
           "targetTemperature" (sample_entity sample_device_fan_only)).
  - reflexivity.
  - simpl. apply not_elem_of_cons. split; [done|apply not_elem_of_nil].
Defined.

(** ** C6: switching to the off mode *)

(** C6.  In every state of the entity, setting the mode to [OFF] makes
    exactly one adapter call, [on = False]; no call for the mode is made,
    whatever the vendor answers. *)
Theorem set_hvac_mode_off_single_call client (e : entity) :
  ∃ r e', execute client (SetHvacMode OFF) e = (r, e')
          ∧ calls e' = (calls e ++ [make_call e "on" (VBool false) false])%list.
Proof.
  unfold_method. simpl. rewrite async_send_api_call_eq. simpl.
  destruct (succeeded _); eexists _, _; (split; [reflexivity|done]).
Qed.

(** ** C3: a request for the current value *)




(** ** C4: an off-step temperature request *)

(** C4.  On a device whose target temperature is active and whose current
    target is a value of its ascending domain, a set-temperature request
    that is off-step and strictly between the minimum and the maximum of
    the domain makes exactly one adapter call, for the snapped value (the
    smallest domain value above the request) and not for the requested
    value; when the vendor reports success the stored target temperature
    is the snapped value.  A request equal to the current value makes no
    adapter call. *)
Theorem set_temperature_snaps client (e : entity) (v : Qc) (cur m M : Z) :
  let D := temp_list (device_data e) in
  "targetTemperature" ∈ active_features (device_data e) →
  ascending D → is_min m D → is_max M D →
  target_temp (device_data e) = Some cur → cur ∈ D →
  (∀ d, d ∈ D → Qc_of_Z d ≠ v) →
  (Qc_of_Z m < v)%Qc → (v < Qc_of_Z M)%Qc →
  (∃ r res e',
      execute client (SetTemperature (Some v)) e = (res, e')
      ∧ calls e' = (calls e ++ [make_call e "targetTemperature" (VInt r) false])%list
      ∧ r ∈ D ∧ (v < Qc_of_Z r)%Qc ∧ (∀ d, d ∈ D → (v ≤ Qc_of_Z d)%Qc → r ≤ d)
      ∧ (succeeded (client (calls e) (make_call e "targetTemperature" (VInt r) false)) = true →
         res = Ret () ∧ target_temp (device_data e') = Some r))
  ∧ execute client (SetTemperature (Some (Qc_of_Z cur))) e = (Ret (), e).
Proof.
  intros D Hact Hasc Hm HM Hcur Hin Hoff HmV HvM. split.
  - assert (D ≠ []) as Hne by (intros HD; rewrite HD in Hin; by apply elem_of_nil in Hin).
    destruct (find_valid_target_temp_snap D v Hne Hasc) as (r & Hr & HrD & _ & _ & Hmid).
    destruct (Hmid m M Hm HM HmV HvM) as [Hvr Hleast].
    assert (v < Qc_of_Z r)%Qc as Hlt.
    { apply Qcle_lt_or_eq in Hvr as [?|Heq]; [done|]. by destruct (Hoff r HrD). }
    unfold_method. rewrite decide_True by done. rewrite Hcur. simpl.
    rewrite bool_decide_eq_false_2 by (intros ->; by apply (Hoff cur)).
    fold D. rewrite Hr. rewrite async_send_api_call_eq. simpl.
    destruct (succeeded _) eqn:Hs; eexists r, _, _;
      (split; [reflexivity|]); (split; [done|]); repeat (split; [done|]).
    + reflexivity.
    + intros Hok. simpl in Hs, Hok. rewrite Hs in Hok. discriminate.
  - unfold_method. rewrite decide_True by done. rewrite Hcur. simpl.
    by rewrite bool_decide_eq_true_2.
Qed.

(** The scenario of the spec: domain 16..30, current 20, requested 20.4. *)
Lemma set_temperature_snaps_witness :
  ∃ e', execute client_ok (SetTemperature (Some (Q2Qc (102 # 5)))) (sample_entity sample_device)
        = (Ret (), e')
      ∧ calls e' = [make_call (sample_entity sample_device) "targetTemperature" (VInt 21) false]
      ∧ target_temp (device_data e') = Some 21.
Proof.
  destruct (set_temperature_snaps client_ok (sample_entity sample_device)
              (Q2Qc (102 # 5)) 20 16 30) as [(r & res & e' & He & Hc & _ & _ & _ & Hok) _].
  - simpl. apply elem_of_cons. by left.
  - unfold ascending. simpl. repeat constructor; lia.
  - split; simpl; [apply elem_of_cons; by left|].
    intros d Hd. repeat (apply elem_of_cons in Hd as [->|Hd]; [lia|]).
    by apply elem_of_nil in Hd.
  - split; simpl; [do 14 apply list_elem_of_further; apply list_elem_of_here|].
    intros d Hd. repeat (apply elem_of_cons in Hd as [->|Hd]; [lia|]).
    by apply elem_of_nil in Hd.
  - reflexivity.
  - simpl. do 4 apply list_elem_of_further. apply list_elem_of_here.
  - intros d Hd. simpl in Hd.
    repeat (apply elem_of_cons in Hd as [->|Hd]; [by vm_compute|]).
    by apply elem_of_nil in Hd.
  - by vm_compute.
  - by vm_compute.
  - assert (execute client_ok (SetTemperature (Some (Q2Qc (102 # 5))))
              (sample_entity sample_device)
            = (Ret (), set_device_data
                 (log_call (sample_entity sample_device)
                    (make_call (sample_entity sample_device) "targetTemperature" (VInt 21) false))
                 (setattr sample_device "target_temp" (VInt 21)))) as Hrun
      by (vm_compute; reflexivity).
    rewrite Hrun in He. injection He as <- <-. eexists. split; [reflexivity|].
    split; reflexivity.
Defined.

(** ** C7: a device that is not available *)

(** C7, as stated, fails: on a device that is not available a
    set-temperature command is not rejected; it calls the adapter and
    succeeds. *)
Lemma unavailable_counterexample :
  let e := set_availability false false (sample_entity sample_device) in
  available_property e = false
  ∧ ∃ e', execute client_ok (SetTemperature (Some (Qc_of_Z 21))) e = (Ret (), e')
          ∧ calls e' = [make_call e "targetTemperature" (VInt 21) false].
Proof.
  split; [reflexivity|]. eexists. split; [vm_compute; reflexivity|reflexivity].
Qed.

Lemma async_send_api_call_availability client key v name assumed a u e :
  key ≠ "available" →
  async_send_api_call client key v name assumed (set_availability a u e) =
    (let '(r, e') := async_send_api_call client key v name assumed e in
     (r, set_availability a u e')).
Proof.
  intros Hkey. rewrite !async_send_api_call_eq. simpl.
  change (make_call (set_availability a u e) name v assumed)
    with (make_call e name v assumed).
  destruct (succeeded _); [|done].
  f_equal. unfold set_availability, set_device_data, setattr. simpl.
  destruct v; repeat case_decide; reflexivity.
Qed.

(** C7, amended.  The entity is available exactly when its device data and
    its coordinator are; no command consults that: with any availability,
    a command performs the same validation and the same adapter calls and
    has the same result and effect as on the available device. *)
Theorem execute_ignores_availability client (c : command) (a u : bool) (e : entity) :
  available_property (set_availability a u e) = a && u
  ∧ execute client c (set_availability a u e) =
      (let '(r, e') := execute client c e in (r, set_availability a u e')).
Proof.
  split; [reflexivity|].
  destruct c; unfold_method; simpl.
  - case_decide; [|done]. destruct temperature as [t|]; [|done].
    destruct (eq_target _ _); [done|].
    destruct (_find_valid_target_temp _ _); [|done].
    by apply async_send_api_call_availability.
  - case_decide; [|done]. by apply async_send_api_call_availability.
  - destruct hvac_mode0; simpl;
      try (by apply async_send_api_call_availability);
      (destruct (device_on (device_data e));
       [first [by apply async_send_api_call_availability | done]|];
       rewrite async_send_api_call_availability by done;
       destruct (async_send_api_call client "device_on" _ _ _ e) as [[[]|x] e1]; [|done];
       first [by apply async_send_api_call_availability | done]).
  - case_decide; [|done]. by apply async_send_api_call_availability.
  - by apply async_send_api_call_availability.
  - by apply async_send_api_call_availability.
  - by apply async_send_api_call_availability.
Qed.

(** ** C2: setting a mode on a device that is off *)

(** C2, as stated, fails: when the vendor cannot be reached, setting a
    mode on a device that is off makes one adapter call, not two; the
    error of the first step is raised and the mode call is not issued. *)
Lemma set_hvac_mode_two_calls_counterexample :
  let e := sample_entity sample_device in
  device_on (device_data e) = false
  ∧ ∃ e', execute client_down (SetHvacMode HEAT) e = (Raise (ApplyError "on"), e')
          ∧ calls e' = [make_call e "on" (VBool true) false].
Proof.
  split; [reflexivity|]. eexists. split; [vm_compute; reflexivity|reflexivity].
Qed.

(** C2, amended.  On a device that is off, setting a mode other than
    [OFF] first calls the adapter with [on = True].  When that call fails,
    its error is raised, no other call is made and the device data is as
    before.  When it succeeds, the device is stored as on.  Then, for a
    mode that has a vendor name (every mode but [AUTO]), the adapter is
    called a second time, with the vendor's name of the mode, and these
    are the only two calls; if the second call fails, its error is raised
    to the caller and the stored state keeps the effect of the first call,
    power on and the previous mode, with no rollback; if it succeeds, the
    stored mode is the new one.  For [AUTO], which has no vendor name,
    [KeyError] is raised after the first call and no mode call is made. *)
Theorem set_hvac_mode_from_off client (e : entity) (mode : HVACMode) :
  mode ≠ OFF → device_on (device_data e) = false →
  ∃ r e',
    execute client (SetHvacMode mode) e = (r, e')
    ∧ let c1 := make_call e "on" (VBool true) false in
      (succeeded (client (calls e) c1) = false →
         r = Raise (ApplyError "on") ∧ calls e' = (calls e ++ [c1])%list
         ∧ device_data e' = device_data e)
      ∧ (succeeded (client (calls e) c1) = true →
           device_on (device_data e') = true
           ∧ (mode ≠ AUTO →
              ∃ s, dict_get HA_TO_SENSIBO mode = Some s
                   ∧ let c2 := make_call e "mode" (VStr s) false in
                     calls e' = (calls e ++ [c1; c2])%list
                     ∧ (succeeded (client (calls e ++ [c1])%list c2) = false →
                          r = Raise (ApplyError "mode")
                          ∧ device_data e' = setattr (device_data e) "device_on" (VBool true)
                          ∧ hvac_mode (device_data e') = hvac_mode (device_data e))
                     ∧ (succeeded (client (calls e ++ [c1])%list c2) = true →
                          r = Ret () ∧ hvac_mode (device_data e') = Some s))
           ∧ (mode = AUTO →
                r = Raise (KeyError "auto")
                ∧ calls e' = (calls e ++ [c1])%list
                ∧ device_data e' = setattr (device_data e) "device_on" (VBool true))).
Proof.
  intros Hmode Hoff.
  unfold_method. rewrite decide_False by done. rewrite Hoff.
  rewrite async_send_api_call_eq. cbn zeta.
  destruct (succeeded (client (calls e) _)) eqn:H1.
  - destruct (HA_TO_SENSIBO_cases mode) as [[-> Hs]|(Hauto & s & Hs & _)]; rewrite Hs.
    + eexists _, _. split; [reflexivity|]. simpl. split; [done|]. intros _.
      split; [done|]. split; [done|]. by intros _.
    + rewrite async_send_api_call_eq. cbn zeta.
      change (make_call (set_device_data _ _) "mode" (VStr s) false)
        with (make_call e "mode" (VStr s) false).
      change (calls (set_device_data (log_call e (make_call e "on" (VBool true) false)) _))
        with (calls e ++ [make_call e "on" (VBool true) false])%list.
      destruct (succeeded (client (calls e ++ _)%list _)) eqn:H2;
        eexists _, _; (split; [reflexivity|]); simpl;
        (split; [done|]); intros _; (split; [done|]); (split; [|done]); intros _;
        exists s; (split; [done|]); (split; [by rewrite <- (assoc_L (++))|]);
        split; first [done | intros; congruence].
  - eexists _, _. split; [reflexivity|]. simpl. by split.
Qed.

(** The scenario of the spec: the device is off, the mode call fails. *)
Lemma set_hvac_mode_from_off_witness :
  ∃ e', execute client_second_fails (SetHvacMode HEAT) (sample_entity sample_device)
        = (Raise (ApplyError "mode"), e')
      ∧ device_on (device_data e') = true
      ∧ hvac_mode (device_data e') = Some "cool".
Proof.
  destruct (set_hvac_mode_from_off client_second_fails (sample_entity sample_device) HEAT)
    as (r & e' & He & _ & Hok).
  - discriminate.
  - reflexivity.
  - destruct (Hok eq_refl) as (Hon & Hmode & _).
    destruct Hmode as (s & Hs & _ & Hfail & _); [discriminate|].
    injection Hs as <-. destruct (Hfail eq_refl) as (-> & _ & Hprev).
    exists e'. by repeat split.
Defined.

(** ** C8: revisions of the store *)

Section StoreProofs.
Context {Snapshot : Type} (threshold : nat).
Local Abbreviation entry := (StoreEntry Snapshot).
Local Abbreviation merge_revisions := (merge_revisions Snapshot threshold).

Lemma merge_entry_revision_le (x : merge_input Snapshot) (en : entry) :
  (revision _ en ≤ revision _ (merge_entry _ threshold x en))%nat.
Proof. destruct x; simpl; lia. Qed.

(** Every later successful merge for [d] returns a revision above the
    one [d] has now, and these revisions go up strictly. *)
Lemma merge_revisions_above (d : string) (ops : list (string * merge_input Snapshot))
    (st : gmap string entry) (en : entry) :
  st !! d = Some en →
  Forall (λ r, revision _ en < r)%nat (merge_revisions d ops st)
  ∧ StronglySorted lt (merge_revisions d ops st).
Proof.
  revert st en. induction ops as [|[id x] ops IH]; intros st en Hd; simpl.
  - split; constructor.
  - unfold merge. destruct (st !! id) as [en'|] eqn:Hid; [|by apply IH].
    destruct (decide (id = d)) as [->|Hne].
    + rewrite Hd in Hid. injection Hid as <-.
      destruct (IH (<[d := merge_entry _ threshold x en]> st)
                  (merge_entry _ threshold x en)) as [Hall Hsort];
        [by rewrite lookup_insert_eq|].
      destruct x as [s|]; simpl in *.
      * split.
        -- constructor; [lia|]. eapply Forall_impl; [exact Hall|]. simpl. lia.
        -- constructor; [done|]. eapply Forall_impl; [exact Hall|]. simpl. lia.
      * done.
    + destruct (IH (<[id := merge_entry _ threshold x en']> st) en) as [Hall Hsort];
        [by rewrite lookup_insert_ne|].
      by destruct x.
Qed.

Lemma merge_revisions_unknown (d : string) (ops : list (string * merge_input Snapshot))
    (st : gmap string entry) :
  st !! d = None → merge_revisions d ops st = [].
Proof.
  revert st. induction ops as [|[id x] ops IH]; intros st Hd; simpl; [done|].
  unfold merge. destruct (st !! id) as [en'|] eqn:Hid; [|by apply IH].
  assert (id ≠ d) as Hne by (intros ->; congruence).
  rewrite decide_False by done.
  destruct x; apply IH; by rewrite lookup_insert_ne.
Qed.

(** C8.  For every device and every sequence of merges on the store, the
    revisions returned by the successful merges for that device are
    strictly increasing; no two of them are equal. *)
Theorem merge_revisions_increasing (d : string)
    (ops : list (string * merge_input Snapshot)) (st : gmap string entry) :
  StronglySorted lt (merge_revisions d ops st)
  ∧ NoDup (merge_revisions d ops st).
Proof.
  assert (StronglySorted lt (merge_revisions d ops st)) as Hs.
  { destruct (st !! d) as [en|] eqn:Hd.
    - by eapply merge_revisions_above.
    - rewrite merge_revisions_unknown by done. constructor. }
  split; [done|].
  induction Hs as [|r rs Hs IH Hall]; constructor; [|done].
  intros Hin. rewrite Forall_forall in Hall. specialize (Hall r Hin). lia.
Qed.
End StoreProofs.

(** * Further properties *)

(** ** The snap function on an ascending domain *)

(** On an ascending domain the result is the least element at or above the
    request, or the last element when the request is at or above it. *)
Lemma find_valid_target_temp_sorted (D : list Z) (v : Qc) (f l : Z) :
  ascending D → D !! 0%nat = Some f → last D = Some l →
  ∃ r, _find_valid_target_temp v D = Ret r ∧ r ∈ D
       ∧ (((v ≤ Qc_of_Z r)%Qc ∧ ∀ d, d ∈ D → (v ≤ Qc_of_Z d)%Qc → r ≤ d)
          ∨ (r = l ∧ (Qc_of_Z l ≤ v)%Qc)).
Proof.
  intros Hasc Hf Hl.
  pose proof (ascending_first_min D f Hasc Hf) as Hmin.
  pose proof (ascending_last_max D l Hasc Hl) as Hmax.
  destruct (find_valid_target_temp_cases D v f l Hf Hl)
    as [(Hvf & Hr)|[(Hvf & Hlv & Hr)|(Hvf & Hlv & i & r & _ & Hir & Hr & Hvr & Hprev)]].
  - exists f. split; [done|]. split; [apply Hmin|]. left. split; [done|].
    intros d Hd _. by apply Hmin.
  - exists l. split; [done|]. split; [apply Hmax|]. by right.
  - exists r. split; [done|]. split; [by eapply list_elem_of_lookup_2|].
    left. split; [done|].
    intros d [j Hj]%list_elem_of_lookup Hvd.
    destruct (decide (i ≤ j)%nat) as [Hij|Hij].
    + by apply (ascending_lookup D i j).
    + exfalso. destruct Hprev as [->|(p & Hp & Hpv)]; [lia|].
      assert (d ≤ p) as Hdp by (apply (ascending_lookup D j (i - 1)); auto with lia).
      apply Z2Qc_inj_le in Hdp.
      apply (Qclt_not_le _ _ Hpv). by etrans.
Qed.

Lemma elem_of_first_last (D : list Z) (d : Z) :
  d ∈ D → ∃ f l, D !! 0%nat = Some f ∧ last D = Some l.
Proof. intros Hd. apply nonempty_first_last. intros ->. by apply not_elem_of_nil in Hd. Qed.

(** X1.  A value of an ascending domain is its own snap: requesting a
    valid target temperature yields that temperature. *)
Theorem find_valid_target_temp_fixed_point (D : list Z) (d : Z) :
  ascending D → d ∈ D → _find_valid_target_temp (Qc_of_Z d) D = Ret d.
Proof.
  intros Hasc Hd. destruct (elem_of_first_last D d Hd) as (f & l & Hf & Hl).
  destruct (find_valid_target_temp_sorted D (Qc_of_Z d) f l Hasc Hf Hl)
    as (r & -> & Hr & [[Hdr Hleast]|[-> Hld]]); f_equal.
  - apply Z2Qc_inj_le in Hdr. assert (r ≤ d); [|lia].
    apply Hleast; [done|]. by apply Z2Qc_inj_le.
  - apply Z2Qc_inj_le in Hld.
    destruct (ascending_last_max D l Hasc Hl) as [_ Hmax]. apply Hmax in Hd. lia.
Qed.

Lemma find_valid_target_temp_fixed_point_witness :
  _find_valid_target_temp (Qc_of_Z 18) [16; 18; 20] = Ret 18.
Proof.
  apply (find_valid_target_temp_fixed_point [16; 18; 20] 18).
  - unfold ascending. repeat constructor; lia.
  - apply list_elem_of_further, list_elem_of_here.
Defined.

(** X2.  The snap is monotone on an ascending domain: a request that is
    not smaller is snapped to a value that is not smaller. *)
Theorem find_valid_target_temp_monotone (D : list Z) (v w : Qc) :
  D ≠ [] → ascending D → (v ≤ w)%Qc →
  ∃ r s, _find_valid_target_temp v D = Ret r
         ∧ _find_valid_target_temp w D = Ret s
         ∧ r ≤ s.
Proof.
  intros Hne Hasc Hvw.
  destruct (nonempty_first_last D Hne) as (f & l & Hf & Hl).
  destruct (ascending_last_max D l Hasc Hl) as [_ Hmax].
  destruct (find_valid_target_temp_sorted D v f l Hasc Hf Hl) as (r & Hr & Hrin & Hrc).
  destruct (find_valid_target_temp_sorted D w f l Hasc Hf Hl) as (s & Hs & Hsin & Hsc).
  exists r, s. do 2 (split; [done|]).
  destruct Hrc as [[Hvr Hleast]|[-> Hlv]], Hsc as [[Hws _]|[-> _]].
  - apply Hleast; [done|]. by apply (Qcle_trans _ w).
  - by apply Hmax.
  - apply Z2Qc_inj_le. apply (Qcle_trans _ v); [done|]. by apply (Qcle_trans _ w).
  - done.
Qed.

Lemma find_valid_target_temp_monotone_witness :
  ∃ r s, _find_valid_target_temp (Q2Qc (33 # 2)) [16; 18; 20] = Ret r
         ∧ _find_valid_target_temp (Q2Qc (37 # 2)) [16; 18; 20] = Ret s
         ∧ r ≤ s.
Proof.
  apply (find_valid_target_temp_monotone [16; 18; 20] (Q2Qc (33 # 2)) (Q2Qc (37 # 2))).
  - done.
  - unfold ascending. repeat constructor; lia.
  - vm_compute. discriminate.
Defined.

(** X3.  Between two neighbours of an ascending domain the snap goes up,
    never down: a request above [a] and at or below the next value [b] is
    snapped to [b], however close to [a] it is. *)
Theorem find_valid_target_temp_rounds_up (D : list Z) (v : Qc) (i : nat) (a b : Z) :
  ascending D → D !! i = Some a → D !! S i = Some b →
  (Qc_of_Z a < v)%Qc → (v ≤ Qc_of_Z b)%Qc →
  _find_valid_target_temp v D = Ret b.
Proof.
  intros Hasc Ha Hb Hav Hvb.
  assert (b ∈ D) as Hbin by (by eapply list_elem_of_lookup_2).
  destruct (elem_of_first_last D b Hbin) as (f & l & Hf & Hl).
  destruct (ascending_last_max D l Hasc Hl) as [_ Hmax].
  destruct (find_valid_target_temp_sorted D v f l Hasc Hf Hl)
    as (r & -> & Hr & [[Hvr Hleast]|[-> Hlv]]); f_equal.
  - assert (r ≤ b) by (by apply Hleast).
    assert (b ≤ r); [|lia].
    apply list_elem_of_lookup in Hr as [j Hj].
    destruct (decide (S i ≤ j)%nat) as [Hij|Hij].
    + by apply (ascending_lookup D (S i) j).
    + exfalso. assert (r ≤ a) as Hra by (apply (ascending_lookup D j i); auto with lia).
      apply Z2Qc_inj_le in Hra. apply (Qclt_not_le _ _ Hav).
      by apply (Qcle_trans _ (Qc_of_Z r)).
  - assert (Qc_of_Z l ≤ Qc_of_Z b)%Qc as Hlb by (by apply (Qcle_trans _ v)).
    apply Z2Qc_inj_le in Hlb. apply Hmax in Hbin. lia.
Qed.

Lemma find_valid_target_temp_rounds_up_witness :
  _find_valid_target_temp (Q2Qc (161 # 10)) [16; 18; 20] = Ret 18.
Proof.
  apply (find_valid_target_temp_rounds_up [16; 18; 20] (Q2Qc (161 # 10)) 0 16 18).
  - unfold ascending. repeat constructor; lia.
  - reflexivity.
  - reflexivity.
  - vm_compute. reflexivity.
  - vm_compute. discriminate.
Defined.

(** On a non-empty list, in any order, the snap is an element of the
    list. *)
Lemma find_valid_target_temp_defined_aux (D : list Z) (v : Qc) :
  D ≠ [] → ∃ r, _find_valid_target_temp v D = Ret r ∧ r ∈ D.
Proof.
  intros Hne. destruct (nonempty_first_last D Hne) as (f & l & Hf & Hl).
  destruct (find_valid_target_temp_cases D v f l Hf Hl)
    as [(_ & Hr)|[(_ & _ & Hr)|(_ & _ & i & r & _ & Hir & Hr & _)]].
  - exists f. split; [done|]. by eapply list_elem_of_lookup_2.
  - exists l. split; [done|]. rewrite last_lookup in Hl. by eapply list_elem_of_lookup_2.
  - exists r. split; [done|]. by eapply list_elem_of_lookup_2.
Qed.

(** X4.  Whatever the order of the list, [_find_valid_target_temp] raises
    [IndexError] on the empty list and returns an element of the list on
    every other one: the index it computes is never out of bounds. *)
Theorem find_valid_target_temp_defined (D : list Z) (v : Qc) :
  (D = [] ∧ _find_valid_target_temp v D = Raise IndexError)
  ∨ (∃ r, _find_valid_target_temp v D = Ret r ∧ r ∈ D).
Proof.
  destruct (decide (D = [])) as [->|Hne]; [by left|right].
  by apply find_valid_target_temp_defined_aux.
Qed.

(** X5.  On a device with a non-empty ascending list of temperatures,
    [min_temp] and [max_temp] return the least and the greatest valid
    temperature, and every snapped request lies between them. *)
Theorem min_max_temp_enclose_snap (d : SensiboDevice) (v : Qc) :
  temp_list d ≠ [] → ascending (temp_list d) →
  ∃ lo hi r, min_temp d = Ret lo ∧ max_temp d = Ret hi
             ∧ is_min lo (temp_list d) ∧ is_max hi (temp_list d)
             ∧ _find_valid_target_temp v (temp_list d) = Ret r
             ∧ lo ≤ r ≤ hi.
Proof.
  intros Hne Hasc.
  destruct (nonempty_first_last _ Hne) as (f & l & Hf & Hl).
  pose proof (ascending_first_min _ f Hasc Hf) as Hmin.
  pose proof (ascending_last_max _ l Hasc Hl) as Hmax.
  destruct (find_valid_target_temp_sorted _ v f l Hasc Hf Hl) as (r & Hr & Hrin & _).
  exists f, l, r. unfold min_temp, max_temp, getitem, getitem_last. rewrite Hf, Hl.
  destruct Hmin as [Hfin Hfle], Hmax as [Hlin Hlle].
  repeat split; auto.
Qed.

Lemma min_max_temp_enclose_snap_witness :
  ∃ lo hi r, min_temp sample_device = Ret lo ∧ max_temp sample_device = Ret hi
             ∧ is_min lo (temp_list sample_device) ∧ is_max hi (temp_list sample_device)
             ∧ _find_valid_target_temp (Q2Qc (99 # 1)) (temp_list sample_device) = Ret r
             ∧ lo ≤ r ≤ hi.
Proof.
  apply (min_max_temp_enclose_snap sample_device (Q2Qc (99 # 1))).
  - done.
  - unfold ascending. simpl. repeat constructor; lia.
Defined.

(** X6.  On a device whose list of temperatures is empty, [min_temp] and
    [max_temp] raise [IndexError]. *)
Theorem min_max_temp_empty (d : SensiboDevice) :
  temp_list d = [] → min_temp d = Raise IndexError ∧ max_temp d = Raise IndexError.
Proof. unfold min_temp, max_temp. by intros ->. Qed.

Lemma min_max_temp_empty_witness :
  let d := {| available := true; device_on := true; hvac_mode := Some "fan";
              target_temp := None; fan_mode := None; swing_mode := None;
              temp_list := []; active_features := []; ac_states := [] |} in
  min_temp d = Raise IndexError ∧ max_temp d = Raise IndexError.
Proof. apply min_max_temp_empty. reflexivity. Defined.

(** ** The two mode tables *)

(** X7.  [HA_TO_SENSIBO] is the inverse of [SENSIBO_TO_HA]: a vendor mode
    is translated to a mode exactly when that mode is translated back to
    the vendor mode. *)
Theorem mode_tables_inverse (s : string) (m : HVACMode) :
  dict_get SENSIBO_TO_HA s = Some m ↔ dict_get HA_TO_SENSIBO m = Some s.
Proof.
  split.
  - unfold SENSIBO_TO_HA. cbn [dict_get].
    repeat case_decide; intros [= <-]; subst; reflexivity.
  - destruct m; vm_compute; intros [= <-]; reflexivity.
Qed.

(** ** What a command does to the entity *)

Lemma setattr_frame (d : SensiboDevice) (key : string) (v : value) :
  available (setattr d key v) = available d
  ∧ temp_list (setattr d key v) = temp_list d
  ∧ active_features (setattr d key v) = active_features d
  ∧ ac_states (setattr d key v) = ac_states d.
Proof. unfold setattr. destruct v; repeat case_decide; done. Qed.

(** One decorated call: one more entry in the call log, the device data
    written on success only, and nothing else touched. *)
Lemma async_send_api_call_effect client key v name assumed (e : entity) :
  ∃ r e', async_send_api_call client key v name assumed e = (r, e')
    ∧ calls e' = (calls e ++ [make_call e name v assumed])%list
    ∧ _device_id e' = _device_id e
    ∧ last_update_success e' = last_update_success e
    ∧ available (device_data e') = available (device_data e)
    ∧ temp_list (device_data e') = temp_list (device_data e)
    ∧ active_features (device_data e') = active_features (device_data e)
    ∧ ac_states (device_data e') = ac_states (device_data e)
    ∧ ((r = Ret ()
        ∧ succeeded (client (calls e) (make_call e name v assumed)) = true
        ∧ device_data e' = setattr (device_data e) key v)
       ∨ (r = Raise (ApplyError name)
          ∧ succeeded (client (calls e) (make_call e name v assumed)) = false
          ∧ device_data e' = device_data e)).
Proof.
  rewrite async_send_api_call_eq. cbn zeta.
  destruct (setattr_frame (device_data e) key v) as (? & ? & ? & ?).
  destruct (succeeded _) eqn:Hs; eexists _, _; (split; [reflexivity|]); simpl;
    repeat (split; [done|]); [left|right]; done.
Qed.

(** Every command: the calls it makes are appended to the log, at most two
    of them, each with the entity's device id, the device's [ac_states]
    and the command's [assumed_state]; the fields that no command writes
    are as before. *)
Lemma execute_effect client (c : command) (e : entity) :
  ∃ r e' new, execute client c e = (r, e')
    ∧ calls e' = (calls e ++ new)%list
    ∧ (length new ≤ 2)%nat
    ∧ Forall (call_for e c) new
    ∧ same_frame e e'.
Proof.
  assert (∀ key v name,
    ∃ r e' new, async_send_api_call client key v name (is_assume_state c) e = (r, e')
      ∧ calls e' = (calls e ++ new)%list
      ∧ (length new ≤ 2)%nat
      ∧ Forall (call_for e c) new
      ∧ same_frame e e') as Hone.
  { intros key v name.
    destruct (async_send_api_call_effect client key v name (is_assume_state c) e)
      as (r & e' & Hr & Hc & ? & ? & ? & ? & ? & ? & _).
    exists r, e', [make_call e name v (is_assume_state c)].
    repeat (split; [done|]). split; [simpl; lia|].
    split; [|done]. by repeat constructor. }
  assert (∀ r : res unit, ∃ r' e' new, (r, e) = (r', e')
      ∧ calls e' = (calls e ++ new)%list
      ∧ (length new ≤ 2)%nat
      ∧ Forall (call_for e c) new
      ∧ same_frame e e') as Hnone.
  { intros r. exists r, e, []. rewrite app_nil_r. repeat (split; [done|]).
    split; [simpl; lia|]. by split. }
  destruct c; unfold_method; cbn [is_assume_state] in *.
  - case_decide; [|apply Hnone]. destruct temperature as [t|]; [|apply Hnone].
    destruct (eq_target _ _); [apply Hnone|].
    destruct (_find_valid_target_temp _ _); [apply Hone|apply Hnone].
  - case_decide; [apply Hone|apply Hnone].
  - case_decide; [apply Hone|].
    destruct (HA_TO_SENSIBO_cases hvac_mode0) as [[_ ->]|(_ & s & -> & _)].
    { destruct (device_on (device_data e)); [apply Hnone|].
      destruct (async_send_api_call_effect client "device_on" (VBool true) "on" false e)
        as (r1 & e1 & -> & Hc1 & Hid1 & Hu1 & Ha1 & Ht1 & Hf1 & Hs1 & Hd1).
      destruct r1 as [[]|x]; eexists _, e1, [make_call e "on" (VBool true) false];
        (split; [reflexivity|]); (split; [done|]); (split; [simpl; lia|]);
        (split; [|done]); by repeat constructor. }
    destruct (device_on (device_data e)); [apply Hone|].
    destruct (async_send_api_call_effect client "device_on" (VBool true) "on" false e)
      as (r1 & e1 & -> & Hc1 & Hid1 & Hu1 & Ha1 & Ht1 & Hf1 & Hs1 & Hd1).
    destruct r1 as [[]|x].
    + destruct (async_send_api_call_effect client "hvac_mode" (VStr s) "mode" false e1)
        as (r2 & e2 & -> & Hc2 & Hid2 & Hu2 & Ha2 & Ht2 & Hf2 & Hs2 & _).
      exists r2, e2, [make_call e "on" (VBool true) false; make_call e1 "mode" (VStr s) false].
      split; [done|]. split; [by rewrite Hc2, Hc1, <- (assoc_L (++))|].
      split; [simpl; lia|]. split.
      { repeat constructor; simpl; congruence. }
      repeat split; congruence.
    + exists (Raise x), e1, [make_call e "on" (VBool true) false].
      repeat (split; [done|]). split; [simpl; lia|]. split; [|done].
      by repeat constructor.
  - case_decide; [apply Hone|apply Hnone].
  - apply Hone.
  - apply Hone.
  - apply Hone.
Qed.

(** X8.  Whatever the vendor answers, a command only adds to the call log:
    the earlier calls stay as they are, at most two calls are added, and
    each of them carries the entity's device id, the device's [ac_states]
    and [assumed_state=True] for the assume-state command only. *)
Theorem execute_appends_calls client (c : command) (e : entity) :
  ∃ r e' new, execute client c e = (r, e')
    ∧ calls e' = (calls e ++ new)%list
    ∧ (length new ≤ 2)%nat
    ∧ Forall (call_for e c) new.
Proof.
  destruct (execute_effect client c e) as (r & e' & new & H1 & H2 & H3 & H4 & _).
  by exists r, e', new.
Qed.

(** X9.  No command, successful or not, changes the entity's device id,
    the coordinator's flag, or the device's availability, list of valid
    temperatures, active features or [ac_states]. *)
Theorem execute_same_frame client (c : command) (e : entity) :
  same_frame e (execute client c e).2.
Proof.
  destruct (execute_effect client c e) as (r & e' & new & -> & _ & _ & _ & H).
  exact H.
Qed.

(** X10.  A command that raises leaves the device data as it was, unless
    it is a set-mode command with a mode other than off on a device that
    is off (whose first call may have succeeded). *)
Theorem failed_command_keeps_device_data client (c : command) (e e' : entity) (x : exn) :
  (∀ m, c = SetHvacMode m → m = OFF ∨ device_on (device_data e) = true) →
  execute client c e = (Raise x, e') →
  device_data e' = device_data e.
Proof.
  intros Hc.
  assert (∀ key v name assumed,
            async_send_api_call client key v name assumed e = (Raise x, e') →
            device_data e' = device_data e) as Hone.
  { intros key v name assumed.
    destruct (async_send_api_call_effect client key v name assumed e)
      as (r & e1 & -> & _ & _ & _ & _ & _ & _ & _ & [(-> & _)|(_ & _ & Hd)]).
    - discriminate.
    - by intros [= _ <-]. }
  assert (∀ r : res unit, (r, e) = (Raise x, e') → device_data e' = device_data e) as Hnone.
  { by intros r [= _ <-]. }
  destruct c; unfold_method.
  - case_decide; [|apply Hnone]. destruct temperature as [t|]; [|apply Hnone].
    destruct (eq_target _ _); [apply Hnone|].
    destruct (_find_valid_target_temp _ _); [apply Hone|apply Hnone].
  - case_decide; [apply Hone|apply Hnone].
  - case_decide; [apply Hone|].
    destruct (Hc hvac_mode0 eq_refl) as [?| ->]; [done|].
    destruct (HA_TO_SENSIBO_cases hvac_mode0) as [[_ ->]|(_ & s & -> & _)];
      [apply Hnone|apply Hone].
  - case_decide; [apply Hone|apply Hnone].
  - apply Hone.
  - apply Hone.
  - apply Hone.
Qed.

Lemma failed_command_keeps_device_data_witness :
  ∃ e', execute client_down (SetFanMode "low") (sample_entity sample_device)
        = (Raise (ApplyError "fanLevel"), e')
        ∧ device_data e' = sample_device.
Proof.
  eexists. split; [vm_compute; reflexivity|].
  apply (failed_command_keeps_device_data client_down (SetFanMode "low")
           (sample_entity sample_device) _ (ApplyError "fanLevel")).
  - intros m Hm. discriminate Hm.
  - vm_compute. reflexivity.
Defined.

(** ** Setting the temperature *)

(** X11.  Whatever the order of the device's non-empty list of
    temperatures and whatever is requested, a set-temperature command that
    does not request the current target makes exactly one vendor call, for
    a temperature of the list; on success that temperature is the stored
    target. *)
Theorem set_temperature_sends_valid_target client (e : entity) (t : Qc) :
  "targetTemperature" ∈ active_features (device_data e) →
  temp_list (device_data e) ≠ [] →
  eq_target t (target_temp (device_data e)) = false →
  ∃ r res e',
    execute client (SetTemperature (Some t)) e = (res, e')
    ∧ r ∈ temp_list (device_data e)
    ∧ calls e' = (calls e ++ [make_call e "targetTemperature" (VInt r) false])%list
    ∧ (res = Ret () → target_temp (device_data e') = Some r)
    ∧ (res ≠ Ret () → device_data e' = device_data e).
Proof.
  intros Hact Hne Hneq.
  destruct (find_valid_target_temp_defined_aux (temp_list (device_data e)) t Hne)
    as (r & Hr & Hin).
  unfold_method. rewrite decide_True by done. rewrite Hneq, Hr.
  destruct (async_send_api_call_effect client "target_temp" (VInt r) "targetTemperature" false e)
    as (res & e' & -> & Hc & _ & _ & _ & _ & _ & _ & [(-> & _ & Hd)|(-> & _ & Hd)]);
    exists r; eexists _, e'; (split; [reflexivity|]); (split; [done|]); (split; [done|]).
  - split; [|done]. intros _. by rewrite Hd.
  - split; [discriminate|done].
Qed.

Lemma set_temperature_sends_valid_target_witness :
  ∃ r res e',
    execute client_ok (SetTemperature (Some (Q2Qc (200 # 1)))) (sample_entity sample_device)
      = (res, e')
    ∧ r ∈ temp_list sample_device
    ∧ calls e' = [make_call (sample_entity sample_device) "targetTemperature" (VInt r) false]
    ∧ (res = Ret () → target_temp (device_data e') = Some r)
    ∧ (res ≠ Ret () → device_data e' = sample_device).
Proof.
  apply (set_temperature_sends_valid_target client_ok (sample_entity sample_device)
           (Q2Qc (200 # 1))).
  - simpl. apply elem_of_cons. by left.
  - done.
  - vm_compute. reflexivity.
Defined.

(** X12.  A set-temperature command without a temperature raises
    [ValueError] when target temperature is an active feature; no call is
    made and the entity is unchanged. *)
Theorem set_temperature_missing_value client (e : entity) :
  "targetTemperature" ∈ active_features (device_data e) →
  execute client (SetTemperature None) e
  = (Raise (ValueError "No target temperature provided"), e).
Proof. intros Hact. unfold_method. by rewrite decide_True. Qed.

Lemma set_temperature_missing_value_witness :
  execute client_ok (SetTemperature None) (sample_entity sample_device)
  = (Raise (ValueError "No target temperature provided"), sample_entity sample_device).
Proof.
  apply (set_temperature_missing_value client_ok (sample_entity sample_device)).
  simpl. apply elem_of_cons. by left.
Defined.

(** X13.  On a device whose list of temperatures is empty, a
    set-temperature command for a value other than the current target
    raises [IndexError] before any vendor call; the entity is unchanged. *)
Theorem set_temperature_empty_list client (e : entity) (t : Qc) :
  "targetTemperature" ∈ active_features (device_data e) →
  temp_list (device_data e) = [] →
  eq_target t (target_temp (device_data e)) = false →
  execute client (SetTemperature (Some t)) e = (Raise IndexError, e).
Proof.
  intros Hact Hnil Hneq. unfold_method.
  rewrite decide_True by done. by rewrite Hneq, Hnil.
Qed.

Lemma set_temperature_empty_list_witness :
  let d := {| available := true; device_on := true; hvac_mode := Some "cool";
              target_temp := None; fan_mode := None; swing_mode := None;
              temp_list := []; active_features := ["targetTemperature"];
              ac_states := [] |} in
  execute client_ok (SetTemperature (Some (Qc_of_Z 21))) (sample_entity d)
  = (Raise IndexError, sample_entity d).
Proof.
  apply set_temperature_empty_list.
  - simpl. apply elem_of_cons. by left.
  - reflexivity.
  - reflexivity.
Defined.

(** ** Setting the mode, the fan and the swing *)

(** X14.  On a device that is on, a set-mode command with a mode that
    has a vendor name (every mode but off and [AUTO]) makes exactly one
    vendor call, for the mode under its vendor name, and no power call; on
    success the mode property reports the requested mode, on failure the
    device data is unchanged.  For [AUTO], which has no vendor name,
    [KeyError] is raised without any call and the entity is unchanged. *)
Theorem set_hvac_mode_when_on client (e : entity) (mode : HVACMode) :
  mode ≠ OFF → device_on (device_data e) = true →
  (mode ≠ AUTO →
   ∃ s r e',
     dict_get HA_TO_SENSIBO mode = Some s
     ∧ execute client (SetHvacMode mode) e = (r, e')
     ∧ calls e' = (calls e ++ [make_call e "mode" (VStr s) false])%list
     ∧ (r = Ret () → hvac_mode_property (device_data e') = Ret mode)
     ∧ (r ≠ Ret () → device_data e' = device_data e))
  ∧ (mode = AUTO →
     execute client (SetHvacMode mode) e = (Raise (KeyError "auto"), e)).
Proof.
  intros Hmode Hon. split.
  - intros Hauto.
    destruct (HA_TO_SENSIBO_cases mode) as [[? _]|(_ & s & Hs & Hback & Hs0)]; [done|].
    exists s. unfold_method. rewrite decide_False by done. rewrite Hon, Hs.
    destruct (async_send_api_call_effect client "hvac_mode" (VStr s) "mode" false e)
      as (r & e' & -> & Hc & _ & _ & _ & _ & _ & _ & [(-> & _ & Hd)|(-> & _ & Hd)]);
      eexists _, e'; (split; [done|]); (split; [reflexivity|]); (split; [done|]).
    + split; [|done]. intros _. rewrite Hd. unfold hvac_mode_property. simpl.
      rewrite Hon. simpl. by rewrite bool_decide_eq_false_2.
    + split; [discriminate|done].
  - intros ->. unfold_method. simpl. by rewrite Hon.
Qed.

Lemma set_hvac_mode_when_on_witness :
  ∃ s r e',
    dict_get HA_TO_SENSIBO HEAT = Some s
    ∧ execute client_ok (SetHvacMode HEAT) (sample_entity sample_device_fan_only) = (r, e')
    ∧ calls e' = [make_call (sample_entity sample_device_fan_only) "mode" (VStr s) false]
    ∧ (r = Ret () → hvac_mode_property (device_data e') = Ret HEAT)
    ∧ (r ≠ Ret () → device_data e' = sample_device_fan_only).
Proof.
  destruct (set_hvac_mode_when_on client_ok (sample_entity sample_device_fan_only) HEAT)
    as [H _].
  - discriminate.
  - reflexivity.
  - apply H. discriminate.
Defined.

(** X15.  With a vendor that accepts every call, a set-mode command
    succeeds for every mode but [AUTO] and every state of the device, and
    the mode property then reports the requested mode.  For [AUTO], which
    has no vendor name, the command raises [KeyError] whatever the vendor
    does, and leaves the device stored as on, with the vendor mode it
    had. *)
Theorem set_hvac_mode_reports_mode client (e : entity) (mode : HVACMode) :
  (∀ history c, succeeded (client history c) = true) →
  (mode ≠ AUTO →
   ∃ e', execute client (SetHvacMode mode) e = (Ret (), e')
         ∧ hvac_mode_property (device_data e') = Ret mode)
  ∧ (mode = AUTO →
     ∃ e', execute client (SetHvacMode mode) e = (Raise (KeyError "auto"), e')
           ∧ device_on (device_data e') = true
           ∧ hvac_mode (device_data e') = hvac_mode (device_data e)).
Proof.
  intros Hok. split.
  - intros Hauto. unfold_method.
    destruct (decide (mode = OFF)) as [->|Hmode].
    + simpl. rewrite async_send_api_call_eq. cbn zeta. rewrite Hok.
      eexists. split; [reflexivity|]. reflexivity.
    + destruct (HA_TO_SENSIBO_cases mode) as [[? _]|(_ & s & Hs & Hback & Hs0)]; [done|].
      rewrite Hs.
      destruct (device_on (device_data e)) eqn:Hon.
      * rewrite async_send_api_call_eq. cbn zeta. rewrite Hok.
        eexists. split; [reflexivity|].
        unfold hvac_mode_property. simpl. rewrite Hon. simpl.
        by rewrite bool_decide_eq_false_2.
      * rewrite async_send_api_call_eq. cbn zeta. rewrite Hok.
        rewrite async_send_api_call_eq. cbn zeta. rewrite Hok.
        eexists. split; [reflexivity|].
        unfold hvac_mode_property. simpl.
        by rewrite bool_decide_eq_false_2.
  - intros ->. unfold_method. simpl.
    destruct (device_on (device_data e)) eqn:Hon.
    + eexists. split; [reflexivity|]. by split.
    + rewrite async_send_api_call_eq. cbn zeta. rewrite Hok.
      eexists. split; [reflexivity|]. by split.
Qed.

Lemma set_hvac_mode_reports_mode_witness :
  ∃ e', execute client_ok (SetHvacMode DRY) (sample_entity sample_device) = (Ret (), e')
        ∧ hvac_mode_property (device_data e') = Ret DRY.
Proof.
  destruct (set_hvac_mode_reports_mode client_ok (sample_entity sample_device) DRY)
    as [H _].
  - intros history c. reflexivity.
  - apply H. discriminate.
Defined.

(** X16.  With fan level active, a set-fan-mode command makes exactly one
    vendor call, for the requested fan mode; on success the requested mode
    is the stored fan mode and the mode, the target temperature, the swing
    and the power state are as before; on failure the device data is
    unchanged. *)
Theorem set_fan_mode_effect client (e : entity) (m : string) :
  "fanLevel" ∈ active_features (device_data e) →
  ∃ r e',
    execute client (SetFanMode m) e = (r, e')
    ∧ calls e' = (calls e ++ [make_call e "fanLevel" (VStr m) false])%list
    ∧ (r = Ret () →
         fan_mode (device_data e') = Some m
         ∧ hvac_mode (device_data e') = hvac_mode (device_data e)
         ∧ target_temp (device_data e') = target_temp (device_data e)
         ∧ swing_mode (device_data e') = swing_mode (device_data e)
         ∧ device_on (device_data e') = device_on (device_data e))
    ∧ (r ≠ Ret () → device_data e' = device_data e).
Proof.
  intros Hact. unfold_method. rewrite decide_True by done.
  destruct (async_send_api_call_effect client "fan_mode" (VStr m) "fanLevel" false e)
    as (r & e' & -> & Hc & _ & _ & _ & _ & _ & _ & [(-> & _ & Hd)|(-> & _ & Hd)]);
    eexists _, e'; (split; [reflexivity|]); (split; [done|]).
  - split; [|done]. intros _. by rewrite Hd.
  - split; [discriminate|done].
Qed.

Lemma set_fan_mode_effect_witness :
  ∃ r e',
    execute client_ok (SetFanMode "low") (sample_entity sample_device) = (r, e')
    ∧ calls e' = [make_call (sample_entity sample_device) "fanLevel" (VStr "low") false]
    ∧ (r = Ret () →
         fan_mode (device_data e') = Some "low"
         ∧ hvac_mode (device_data e') = Some "cool"
         ∧ target_temp (device_data e') = Some 20
         ∧ swing_mode (device_data e') = Some "stopped"
         ∧ device_on (device_data e') = false)
    ∧ (r ≠ Ret () → device_data e' = sample_device).
Proof.
  apply (set_fan_mode_effect client_ok (sample_entity sample_device) "low").
  simpl. apply list_elem_of_further, list_elem_of_here.
Defined.

(** X17.  With swing active, a set-swing-mode command makes exactly one
    vendor call, for the requested swing mode; on success the requested
    mode is the stored swing mode and the mode, the target temperature,
    the fan mode and the power state are as before; on failure the device
    data is unchanged. *)
Theorem set_swing_mode_effect client (e : entity) (m : string) :
  "swing" ∈ active_features (device_data e) →
  ∃ r e',
    execute client (SetSwingMode m) e = (r, e')
    ∧ calls e' = (calls e ++ [make_call e "swing" (VStr m) false])%list
    ∧ (r = Ret () →
         swing_mode (device_data e') = Some m
         ∧ hvac_mode (device_data e') = hvac_mode (device_data e)
         ∧ target_temp (device_data e') = target_temp (device_data e)
         ∧ fan_mode (device_data e') = fan_mode (device_data e)
         ∧ device_on (device_data e') = device_on (device_data e))
    ∧ (r ≠ Ret () → device_data e' = device_data e).
Proof.
  intros Hact. unfold_method. rewrite decide_True by done.
  destruct (async_send_api_call_effect client "swing_mode" (VStr m) "swing" false e)
    as (r & e' & -> & Hc & _ & _ & _ & _ & _ & _ & [(-> & _ & Hd)|(-> & _ & Hd)]);
    eexists _, e'; (split; [reflexivity|]); (split; [done|]).
  - split; [|done]. intros _. by rewrite Hd.
  - split; [discriminate|done].
Qed.

Lemma set_swing_mode_effect_witness :
  ∃ r e',
    execute client_ok (SetSwingMode "rangeFull") (sample_entity sample_device) = (r, e')
    ∧ calls e' = [make_call (sample_entity sample_device) "swing" (VStr "rangeFull") false]
    ∧ (r = Ret () →
         swing_mode (device_data e') = Some "rangeFull"
         ∧ hvac_mode (device_data e') = Some "cool"
         ∧ target_temp (device_data e') = Some 20
         ∧ fan_mode (device_data e') = Some "high"
         ∧ device_on (device_data e') = false)
    ∧ (r ≠ Ret () → device_data e' = sample_device).
Proof.
  apply (set_swing_mode_effect client_ok (sample_entity sample_device) "rangeFull").
  simpl. do 2 apply list_elem_of_further. apply list_elem_of_here.
Defined.

(** ** The power commands *)

(** X18.  The assume-state command makes exactly one vendor call, named
    "on", with [assumed_state=True]; its value is [False] for the state
    "off" and [True] for every other string, and on success it is the
    stored power state. *)
Theorem assume_state_effect client (e : entity) (state : string) :
  ∃ r e',
    execute client (AssumeState state) e = (r, e')
    ∧ calls e' = (calls e ++ [make_call e "on" (VBool (bool_decide (state ≠ "off"))) true])%list
    ∧ (r = Ret () → device_on (device_data e') = bool_decide (state ≠ "off"))
    ∧ (r ≠ Ret () → device_data e' = device_data e).
Proof.
  unfold_method.
  assert (negb (bool_decide (state = HVACMode_name OFF)) = bool_decide (state ≠ "off")) as ->.
  { simpl. by rewrite bool_decide_not. }
  destruct (async_send_api_call_effect client "device_on"
              (VBool (bool_decide (state ≠ "off"))) "on" true e)
    as (r & e' & -> & Hc & _ & _ & _ & _ & _ & _ & [(-> & _ & Hd)|(-> & _ & Hd)]);
    eexists _, e'; (split; [reflexivity|]); (split; [done|]).
  - split; [|done]. intros _. by rewrite Hd.
  - split; [discriminate|done].
Qed.

(** X19.  The turn-on and the turn-off command each make exactly one
    vendor call, named "on", with the value [True] or [False] and without
    [assumed_state]; after a successful turn-off the mode property reports
    off, and after a successful turn-on the device is on with the stored
    vendor mode as before. *)
Theorem turn_on_off_effect client (e : entity) :
  (∃ r e',
     execute client TurnOn e = (r, e')
     ∧ calls e' = (calls e ++ [make_call e "on" (VBool true) false])%list
     ∧ (r = Ret () → device_on (device_data e') = true
                     ∧ hvac_mode (device_data e') = hvac_mode (device_data e)))
  ∧ (∃ r e',
       execute client TurnOff e = (r, e')
       ∧ calls e' = (calls e ++ [make_call e "on" (VBool false) false])%list
       ∧ (r = Ret () → hvac_mode_property (device_data e') = Ret OFF)).
Proof.
  split; unfold_method.
  - destruct (async_send_api_call_effect client "device_on" (VBool true) "on" false e)
      as (r & e' & -> & Hc & _ & _ & _ & _ & _ & _ & [(-> & _ & Hd)|(-> & _ & Hd)]);
      eexists _, e'; (split; [reflexivity|]); (split; [done|]).
    + intros _. by rewrite Hd.
    + discriminate.
  - destruct (async_send_api_call_effect client "device_on" (VBool false) "on" false e)
      as (r & e' & -> & Hc & _ & _ & _ & _ & _ & _ & [(-> & _ & Hd)|(-> & _ & Hd)]);
      eexists _, e'; (split; [reflexivity|]); (split; [done|]).
    + intros _. by rewrite Hd.
    + discriminate.
Qed.

(** ** The list of modes *)

Lemma hvac_modes_loop_spec (modes : list string) (acc : list HVACMode) :
  (∃ l, hvac_modes_loop modes acc = Ret (acc ++ l)%list
        ∧ Forall2 (λ m h, dict_get SENSIBO_TO_HA m = Some h) modes l)
  ∨ (∃ k, hvac_modes_loop modes acc = Raise (KeyError k)
          ∧ k ∈ modes ∧ dict_get SENSIBO_TO_HA k = None).
Proof.
  revert acc. induction modes as [|m modes IH]; intros acc.
  - left. exists []. rewrite app_nil_r. by split.
  - cbn [hvac_modes_loop]. unfold dict_getitem.
    destruct (dict_get SENSIBO_TO_HA m) as [h|] eqn:Hm; cbn [res_bind].
    + destruct (IH (acc ++ [h])%list) as [(l & -> & Hl)|(k & -> & Hk & Hnone)].
      * left. exists (h :: l). rewrite <- (assoc_L (++)). split; [done|]. by constructor.
      * right. exists k. split; [done|]. split; [by apply list_elem_of_further|done].
    + right. exists m. split; [done|]. split; [apply list_elem_of_here|done].
Qed.

(** X20.  When every vendor mode of the device has a translation, the
    list of modes is never empty: it is [[OFF]] for a device without
    modes, and otherwise the translations of the device's modes, one for
    one and in their order. *)
Theorem hvac_modes_translates (modes : list string) :
  (∀ m, m ∈ modes → is_Some (dict_get SENSIBO_TO_HA m)) →
  ∃ l, hvac_modes_property modes = Ret l
       ∧ l ≠ []
       ∧ (modes = [] → l = [OFF])
       ∧ (modes ≠ [] → Forall2 (λ m h, dict_get SENSIBO_TO_HA m = Some h) modes l).
Proof.
  intros Hknown. unfold hvac_modes_property.
  destruct (hvac_modes_loop_spec modes []) as [(l & -> & Hl)|(k & _ & Hk & Hnone)].
  - simpl. destruct Hl as [|m h modes l Hm Hl].
    + exists [OFF]. by repeat split.
    + exists (h :: l). repeat split; try done. intros _. by constructor.
  - apply Hknown in Hk as [h Hh]. congruence.
Qed.

Lemma hvac_modes_translates_witness :
  ∃ l, hvac_modes_property ["cool"; "heat"; "fan"] = Ret l
       ∧ l ≠ []
       ∧ (["cool"; "heat"; "fan"] = [] → l = [OFF])
       ∧ (["cool"; "heat"; "fan"] ≠ [] →
          Forall2 (λ m h, dict_get SENSIBO_TO_HA m = Some h) ["cool"; "heat"; "fan"] l).
Proof.
  apply (hvac_modes_translates ["cool"; "heat"; "fan"]).
  intros m Hm. repeat (apply elem_of_cons in Hm as [->|Hm]; [by eexists|]).
  by apply not_elem_of_nil in Hm.
Defined.

(** X21.  When some vendor mode of the device has no translation, the
    list of modes raises [KeyError] for a mode of the device that has
    none. *)
Theorem hvac_modes_unknown_mode (modes : list string) (m : string) :
  m ∈ modes → dict_get SENSIBO_TO_HA m = None →
  ∃ k, hvac_modes_property modes = Raise (KeyError k)
       ∧ k ∈ modes ∧ dict_get SENSIBO_TO_HA k = None.
Proof.
  intros Hm Hnone. unfold hvac_modes_property.
  destruct (hvac_modes_loop_spec modes []) as [(l & _ & Hl)|(k & -> & Hk & Hknone)].
  - exfalso. apply list_elem_of_lookup in Hm as [i Hi].
    destruct (Forall2_lookup_l _ _ _ _ _ Hl Hi) as (h & _ & Hh). congruence.
  - by exists k.
Qed.

Lemma hvac_modes_unknown_mode_witness :
  ∃ k, hvac_modes_property ["cool"; "turbo"; "heat"] = Raise (KeyError k)
       ∧ k ∈ ["cool"; "turbo"; "heat"] ∧ dict_get SENSIBO_TO_HA k = None.
Proof.
  apply (hvac_modes_unknown_mode ["cool"; "turbo"; "heat"] "turbo").
  - apply list_elem_of_further, list_elem_of_here.
  - reflexivity.
Defined.

(** X22.  When the device's current vendor mode is one of its modes and
    the list of modes is returned, the mode property returns a mode which
    is off or is in that list. *)
Theorem hvac_mode_among_hvac_modes (d : SensiboDevice) (modes : list string)
    (m : string) (l : list HVACMode) :
  hvac_mode d = Some m → m ∈ modes → hvac_modes_property modes = Ret l →
  ∃ h, hvac_mode_property d = Ret h ∧ (h = OFF ∨ h ∈ l).
Proof.
  intros Hd Hm. unfold hvac_modes_property.
  destruct (hvac_modes_loop_spec modes []) as [(l' & -> & Hl)|(k & -> & _)]; [|done].
  simpl. intros [= <-]. unfold hvac_mode_property. rewrite Hd. simpl.
  destruct (device_on d && negb (bool_decide (m = ""))); [|exists OFF; by split; [|left]].
  apply list_elem_of_lookup in Hm as [i Hi].
  destruct (Forall2_lookup_l _ _ _ _ _ Hl Hi) as (h & Hh & Hmh).
  exists h. unfold dict_getitem. rewrite Hmh. split; [done|]. right.
  destruct l' as [|h' l']; [by rewrite lookup_nil in Hh|].
  by eapply list_elem_of_lookup_2.
Qed.

Lemma hvac_mode_among_hvac_modes_witness :
  ∃ h, hvac_mode_property sample_device_fan_only = Ret h
       ∧ (h = OFF ∨ h ∈ [COOL; FAN_ONLY]).
Proof.
  apply (hvac_mode_among_hvac_modes sample_device_fan_only ["cool"; "fan"] "fan").
  - reflexivity.
  - apply list_elem_of_further, list_elem_of_here.
  - reflexivity.
Defined.

(** ** The supported features *)

Lemma get_features_bits_from FAN SWING TARGET (ks : list string) (acc : Z) (n : Z) :
  Z.testbit
    (foldl (λ features key,
              match dict_get (FIELD_TO_FLAG FAN SWING TARGET) key with
              | Some flag => Z.lor features flag
              | None => features
              end) acc ks) n = true
  ↔ Z.testbit acc n = true
    ∨ ∃ key flag, key ∈ ks ∧ dict_get (FIELD_TO_FLAG FAN SWING TARGET) key = Some flag
                  ∧ Z.testbit flag n = true.
Proof.
  revert acc. induction ks as [|k ks IH]; intros acc; cbn [foldl].
  - split; [by left|]. intros [?|(key & flag & Hk & _)]; [done|].
    by apply not_elem_of_nil in Hk.
  - rewrite IH. split.
    + intros [Hacc|(key & flag & Hk & Hf & Hb)].
      * destruct (dict_get _ k) as [flag|] eqn:Hk; [|by left].
        rewrite Z.lor_spec in Hacc. apply orb_true_iff in Hacc as [?|?]; [by left|].
        right. exists k, flag. split; [apply list_elem_of_here|done].
      * right. exists key, flag. split; [by apply list_elem_of_further|done].
    + intros [Hacc|(key & flag & Hk & Hf & Hb)].
      * left. destruct (dict_get _ k); [|done].
        rewrite Z.lor_spec. apply orb_true_iff. by left.
      * apply elem_of_cons in Hk as [->|Hk].
        -- left. rewrite Hf, Z.lor_spec. apply orb_true_iff. by right.
        -- right. by exists key, flag.
Qed.

(** X23.  Whatever the values of the three feature flags, a bit is set in
    the supported features exactly when it is set in the flag of some
    field among the device's full features; so the flag of every such
    field is contained in the supported features, whatever the order of
    the fields and however often they occur. *)
Theorem get_features_bits FAN SWING TARGET (full_features : list string) :
  (∀ n, Z.testbit (get_features FAN SWING TARGET full_features) n = true
        ↔ ∃ key flag, key ∈ full_features
                      ∧ dict_get (FIELD_TO_FLAG FAN SWING TARGET) key = Some flag
                      ∧ Z.testbit flag n = true)
  ∧ (∀ key flag, key ∈ full_features →
                 dict_get (FIELD_TO_FLAG FAN SWING TARGET) key = Some flag →
                 Z.land (get_features FAN SWING TARGET full_features) flag = flag).
Proof.
  assert (∀ n, Z.testbit (get_features FAN SWING TARGET full_features) n = true
        ↔ ∃ key flag, key ∈ full_features
                      ∧ dict_get (FIELD_TO_FLAG FAN SWING TARGET) key = Some flag
                      ∧ Z.testbit flag n = true) as Hbits.
  { intros n. unfold get_features. rewrite get_features_bits_from.
    rewrite Z.bits_0. split; [by intros [?|?]|by right]. }
  split; [done|].
  intros key flag Hk Hf. apply Z.bits_inj'. intros n _.
  rewrite Z.land_spec.
  destruct (Z.testbit flag n) eqn:Hb; [|by rewrite andb_false_r].
  rewrite andb_true_r. apply Hbits. by exists key, flag.
Qed.

(** ** The parameters of the custom services *)

Lemma dict_get_set {K V} `{EqDecision K} (d : list (K * V)) (k k' : K) (v : V) :
  dict_get (dict_set d k v) k' = if decide (k' = k) then Some v else dict_get d k'.
Proof.
  induction d as [|[k0 v0] d IH]; cbn [dict_set dict_get].
  - done.
  - destruct (decide (k = k0)) as [->|Hk]; cbn [dict_get].
    + by destruct (decide (k' = k0)).
    + destruct (decide (k' = k0)) as [->|Hk'].
      * by rewrite decide_False.
      * apply IH.
Qed.

Lemma dict_set_keys {K V} `{EqDecision K} (d : list (K * V)) (k : K) (v : V) :
  is_Some (dict_get d k) → (dict_set d k v).*1 = d.*1.
Proof.
  induction d as [|[k0 v0] d IH]; cbn [dict_set dict_get].
  - by intros [? ?].
  - destruct (decide (k = k0)) as [->|Hk]; [done|].
    intros Hd. cbn [fmap list_fmap]. f_equal. by apply IH.
Qed.

(** X24.  The timer is asked for the opposite of the power state in the
    device's [ac_states]: the parameters hold the requested minutes and a
    copy of [ac_states], with the same keys in the same order, in which
    "on" is [True] exactly when it was [False] before, and every other
    key has its value as before. *)
Theorem enable_timer_params_toggle (minutes : Z) (d : SensiboDevice) (on : value) :
  dict_get (ac_states d) "on" = Some on →
  ∃ p, enable_timer_params minutes d = Ret p
       ∧ minutesFromNow p = minutes
       ∧ dict_get (acState p) "on" = Some (VBool (bool_decide (on = VBool false)))
       ∧ (∀ k, k ≠ "on" → dict_get (acState p) k = dict_get (ac_states d) k)
       ∧ (acState p).*1 = (ac_states d).*1.
Proof.
  intros Hon. unfold enable_timer_params, dict_getitem. rewrite Hon. cbn [res_bind].
  eexists. split; [reflexivity|]. cbn [minutesFromNow acState].
  assert (is_False on = bool_decide (on = VBool false)) as ->.
  { destruct on as [[]| |]; done. }
  split; [done|]. split; [|split].
  - rewrite dict_get_set. by rewrite decide_True.
  - intros k Hk. rewrite dict_get_set. by rewrite decide_False.
  - apply dict_set_keys. by rewrite Hon.
Qed.

Lemma enable_timer_params_toggle_witness :
  ∃ p, enable_timer_params 30 sample_device = Ret p
       ∧ minutesFromNow p = 30
       ∧ dict_get (acState p) "on" = Some (VBool true)
       ∧ (∀ k, k ≠ "on" → dict_get (acState p) k = dict_get (ac_states sample_device) k)
       ∧ (acState p).*1 = (ac_states sample_device).*1.
Proof.
  apply (enable_timer_params_toggle 30 sample_device (VBool false)). reflexivity.
Defined.

(** X25.  On a device whose [ac_states] has no entry for "on", the
    parameters of the timer are not built: [KeyError] is raised. *)
Theorem enable_timer_params_missing_on (minutes : Z) (d : SensiboDevice) :
  dict_get (ac_states d) "on" = None →
  enable_timer_params minutes d = Raise (KeyError "on").
Proof. intros Hon. unfold enable_timer_params, dict_getitem. by rewrite Hon. Qed.

Lemma enable_timer_params_missing_on_witness :
  let d := {| available := true; device_on := true; hvac_mode := Some "cool";
              target_temp := None; fan_mode := None; swing_mode := None;
              temp_list := []; active_features := [];
              ac_states := [("mode", VStr "cool")] |} in
  enable_timer_params 30 d = Raise (KeyError "on").
Proof. apply enable_timer_params_missing_on. reflexivity. Defined.

(** X26.  Unless the sensitivity is the empty string, the parameters of
    Pure Boost are built: "enabled" is [True], each argument that is given
    is found under its vendor key (the sensitivity cut to its first
    character), an argument that is not given has no entry, and the keys
    are "enabled" followed by those of the given arguments, in the order
    sensitivity, indoor, ac, geo, outdoor. *)
Theorem enable_pure_boost_params_entries
    (ac geo indoor outdoor : option bool) (sensitivity : option string) :
  sensitivity ≠ Some "" →
  ∃ params,
    enable_pure_boost_params ac geo indoor outdoor sensitivity = Ret params
    ∧ dict_get params "enabled" = Some (VBool true)
    ∧ dict_get params "sensitivity" = (λ s, VStr (String.substring 0 1 s)) <$> sensitivity
    ∧ dict_get params "measurementsIntegration" = VBool <$> indoor
    ∧ dict_get params "acIntegration" = VBool <$> ac
    ∧ dict_get params "geoIntegration" = VBool <$> geo
    ∧ dict_get params "primeIntegration" = VBool <$> outdoor
    ∧ params.*1
      = ("enabled" :: ((λ _, "sensitivity") <$> option_list sensitivity)
           ++ ((λ _, "measurementsIntegration") <$> option_list indoor)
           ++ ((λ _, "acIntegration") <$> option_list ac)
           ++ ((λ _, "geoIntegration") <$> option_list geo)
           ++ ((λ _, "primeIntegration") <$> option_list outdoor))%list.
Proof.
  intros Hs. unfold enable_pure_boost_params.
  destruct sensitivity as [[|c s]|]; [done| |];
    destruct ac, geo, indoor, outdoor; eexists; (split; [reflexivity|]);
    repeat split; by destruct s.
Qed.

Lemma enable_pure_boost_params_entries_witness :
  ∃ params,
    enable_pure_boost_params (Some true) None (Some false) None (Some "N") = Ret params
    ∧ dict_get params "enabled" = Some (VBool true)
    ∧ dict_get params "sensitivity" = Some (VStr "N")
    ∧ dict_get params "measurementsIntegration" = Some (VBool false)
    ∧ dict_get params "acIntegration" = Some (VBool true)
    ∧ dict_get params "geoIntegration" = None
    ∧ dict_get params "primeIntegration" = None
    ∧ params.*1 = ["enabled"; "sensitivity"; "measurementsIntegration"; "acIntegration"].
Proof.
  apply (enable_pure_boost_params_entries (Some true) None (Some false) None (Some "N")).
  discriminate.
Defined.

(** X27.  Building the parameters of Pure Boost fails in one case only:
    it raises exactly when the sensitivity is the empty string, whatever
    the other arguments, and what it raises then is [IndexError] (from
    taking the first character). *)
Theorem enable_pure_boost_params_empty_sensitivity
    (ac geo indoor outdoor : option bool) (sensitivity : option string) :
  (sensitivity = Some "" ↔
   ∃ e, enable_pure_boost_params ac geo indoor outdoor sensitivity = Raise e)
  ∧ (∀ e, enable_pure_boost_params ac geo indoor outdoor sensitivity = Raise e →
          e = IndexError).
Proof.
  unfold enable_pure_boost_params.
  destruct sensitivity as [[|c s]|]; cbn [first_char res_bind]; split.
  - split; [by exists IndexError|done].
  - by intros e [= <-].
  - split; [done|]. by intros [e He].
  - done.
  - split; [done|]. by intros [e He].
  - done.
Qed.

(** ** The Xiaomi TV *)

Lemma alternates_snoc (l : list tv_call) (x : tv_call) :
  alternates (l ++ [x])%list = alternates l && negb (bool_decide (last l = Some x)).
Proof.
  induction l as [|a [|b t] IH].
  - done.
  - simpl. destruct (decide (a = x)) as [->|Hne].
    + by rewrite !bool_decide_eq_true_2.
    + rewrite !bool_decide_eq_false_2; [done|congruence|done].
  - change (alternates ((a :: b :: t) ++ [x]))
      with (negb (bool_decide (a = b)) && alternates ((b :: t) ++ [x])).
    rewrite IH.
    change (alternates (a :: b :: t))
      with (negb (bool_decide (a = b)) && alternates (b :: t)).
    change (last (a :: b :: t)) with (last (b :: t)).
    by rewrite andb_assoc.
Qed.

Lemma power_calls_snoc (st st' : string) (l : list tv_call) (x : tv_call) :
  power_calls {| _state := st'; tv_calls := (l ++ [x])%list |}
  = if is_power_call x then (power_calls {| _state := st; tv_calls := l |} ++ [x])%list
    else power_calls {| _state := st; tv_calls := l |}.
Proof.
  unfold power_calls. cbn [tv_calls]. rewrite filter_app.
  destruct x; cbn; by rewrite ?app_nil_r.
Qed.

Lemma tv_execute_consistent (tv : XiaomiTV) (c : tv_command) :
  tv_consistent tv → tv_consistent (tv_execute tv c).
Proof.
  destruct tv as [st l]. unfold tv_consistent.
  intros (Halt & Hhd & Hlast & Hst). cbn [_state] in *.
  destruct c; cbn [tv_execute].
  - unfold turn_off. cbn [_state tv_calls]. case_decide as Hoff; [|done].
    rewrite (power_calls_snoc st). cbn [is_power_call _state].
    assert (st = STATE_ON) as Hon by (by destruct Hst).
    apply Hlast in Hon. rewrite alternates_snoc, last_snoc, Halt, Hon.
    repeat split; try done.
    + destruct (power_calls _); [done|]. done.
    + by right.
  - unfold turn_on. cbn [_state tv_calls]. case_decide as Hon; [|done].
    rewrite (power_calls_snoc st). cbn [is_power_call _state].
    rewrite alternates_snoc, last_snoc, Halt.
    repeat split; try done.
    + simpl. rewrite bool_decide_eq_false_2; [done|]. intros Hw. by apply Hon, Hlast.
    + destruct (power_calls _); [done|]. done.
    + by left.
  - unfold volume_up. cbn [_state tv_calls].
    by rewrite (power_calls_snoc st).
  - unfold volume_down. cbn [_state tv_calls].
    by rewrite (power_calls_snoc st).
Qed.

(** X28.  Whatever commands the TV entity runs after it is created, the
    sleep and wake calls it makes alternate, beginning with a wake, and
    its state is on exactly when the last of them is a wake: the TV is
    never sent two sleeps or two wakes in a row. *)
Theorem tv_power_calls_alternate (cs : list tv_command) :
  let tv := tv_run XiaomiTV_init cs in
  alternates (power_calls tv) = true
  ∧ head (power_calls tv) ≠ Some Sleep
  ∧ (_state tv = STATE_ON ↔ last (power_calls tv) = Some Wake).
Proof.
  assert (∀ tv, tv_consistent tv → tv_consistent (tv_run tv cs)) as Hrun.
  { unfold tv_run. induction cs as [|c cs IH]; intros tv Htv; [done|].
    cbn [foldl]. by apply IH, tv_execute_consistent. }
  destruct (Hrun XiaomiTV_init) as (? & ? & ? & _); [|done].
  unfold tv_consistent. cbn. repeat split; try done. by right.
Qed.

(** X29.  The volume commands are passed on whatever the state of the
    entity, on or off: after any run of commands, the volume calls made
    are those before the run followed by one call per volume command, in
    the order of the commands. *)
Theorem tv_volume_calls (tv : XiaomiTV) (cs : list tv_command) :
  filter (λ c, is_power_call c = false) (tv_calls (tv_run tv cs))
  = (filter (λ c, is_power_call c = false) (tv_calls tv) ++ omap volume_call cs)%list.
Proof.
  unfold tv_run. revert tv. induction cs as [|c cs IH]; intros tv; cbn [foldl omap list_omap].
  - by rewrite app_nil_r.
  - rewrite IH. destruct c; cbn [tv_execute volume_call].
    + unfold turn_off. case_decide; [|done]. cbn [tv_calls].
      rewrite filter_app. cbn. by rewrite app_nil_r.
    + unfold turn_on. case_decide; [|done]. cbn [tv_calls].
      rewrite filter_app. cbn. by rewrite app_nil_r.
    + unfold volume_up. cbn [tv_calls]. rewrite filter_app. cbn.
      by rewrite <- (assoc_L (++)).
    + unfold volume_down. cbn [tv_calls]. rewrite filter_app. cbn.
      by rewrite <- (assoc_L (++)).
Qed.
